(** * linkerd2-proxy-init: the iptables rule composer and its execution driver

    A shallow embedding of [iptables/iptables.go].  Go's [int] is modelled
    as [Z] (the program never does arithmetic on its integers: it prints
    them and compares [ProxyUID] with zero; on the 64-bit target of the
    Dockerfile [int(time.Now().Unix())] is the Unix time itself), a
    [string] as [string], a slice as a [list], and an [*exec.Cmd] as the
    record of the two fields of [os/exec.Cmd] that the program sets:
    [Path] and [Args].

    Every [*exec.Cmd] is built by a fresh call of a [make...] function and
    handed to [executeCommand] once, so the assignments to [cmd.Args]
    there are seen by nothing but the start of that one process: a command
    is a value, and [executeCommand] works on its own copy.

    The console output ([fmt.Printf], [startSection], [endSection]) is not
    part of the model: no function of the package reads it back. *)

From Stdlib Require Import ZArith List String Ascii Bool Lia.
From Stdlib Require Import DecimalString DecimalZ.
Import ListNotations.
Local Open Scope string_scope.
Local Open Scope Z_scope.
Local Open Scope list_scope.

Set Implicit Arguments.

(** ** Constants *)

Definition RedirectAllMode : string := "redirect-all".
Definition RedirectListedMode : string := "redirect-listed".
Definition IptablesPreroutingChainName : string := "PREROUTING".
Definition IptablesOutputChainName : string := "OUTPUT".
Definition outputChainName : string := "PROXY_INIT_OUTPUT".
Definition redirectChainName : string := "PROXY_INIT_REDIRECT".

(** ** The configuration *)

Record FirewallConfiguration : Type := {
  Mode : string;
  PortsToRedirectInbound : list Z;
  InboundPortsToIgnore : list Z;
  OutboundPortsToIgnore : list Z;
  ProxyInboundPort : Z;
  ProxyOutgoingPort : Z;
  ProxyUID : Z;
  SimulateOnly : bool;
  NetNs : string;
  UseWaitFlag : bool
}.

(** ** [os/exec]

    [exec.Command name arg...] "sets only the Path and Args in the returned
    structure": [Path] is the program to run ([name], resolved along PATH
    when it has no separator; the model keeps the name), and [Args] is the
    argument vector, [name] first.  Starting the command executes [Path]
    with [Args] as its argv. *)

Record Cmd : Type := { Path : string; Args : list string }.

Definition Command (name : string) (arg : list string) : Cmd :=
  {| Path := name; Args := name :: arg |}.

(** [cmd.Args = args]: the assignment leaves [Path] as it is. *)
Definition set_Args (cmd : Cmd) (args : list string) : Cmd :=
  {| Path := Path cmd; Args := args |}.

(** Go's [append(s, x)] on a slice that is used linearly: [x] is added at
    the end. *)
Definition append (A : Type) (s : list A) (x : A) : list A := s ++ [x].

(** ** [strconv.Itoa]: the decimal numeral of an integer, ["-"] first when
    it is negative. *)

Definition Itoa (i : Z) : string := NilZero.string_of_int (Z.to_int i).

(** [firewallConfiguration.PortsToRedirectInbound = ports], the other
    fields kept. *)
Definition withPortsToRedirectInbound (cfg : FirewallConfiguration) (ports : list Z)
    : FirewallConfiguration :=
  {| Mode := Mode cfg;
     PortsToRedirectInbound := ports;
     InboundPortsToIgnore := InboundPortsToIgnore cfg;
     OutboundPortsToIgnore := OutboundPortsToIgnore cfg;
     ProxyInboundPort := ProxyInboundPort cfg;
     ProxyOutgoingPort := ProxyOutgoingPort cfg;
     ProxyUID := ProxyUID cfg;
     SimulateOnly := SimulateOnly cfg;
     NetNs := NetNs cfg;
     UseWaitFlag := UseWaitFlag cfg |}.

(** ** Sample configurations and boundaries

    [sampleConfiguration] redirects everything, exempts two inbound ports
    and one outbound port, and names a proxy user; the others differ from
    it in one respect each. *)

Definition sampleConfiguration : FirewallConfiguration :=
  {| Mode := RedirectAllMode;
     PortsToRedirectInbound := [];
     InboundPortsToIgnore := [4190; 4191];
     OutboundPortsToIgnore := [443];
     ProxyInboundPort := 4143;
     ProxyOutgoingPort := 4140;
     ProxyUID := 2102;
     SimulateOnly := false;
     NetNs := "";
     UseWaitFlag := false |}.

Definition listedConfiguration : FirewallConfiguration :=
  {| Mode := RedirectListedMode;
     PortsToRedirectInbound := [8080; 9090];
     InboundPortsToIgnore := [4190; 4191];
     OutboundPortsToIgnore := [443];
     ProxyInboundPort := 4143;
     ProxyOutgoingPort := 4140;
     ProxyUID := 2102;
     SimulateOnly := false;
     NetNs := "";
     UseWaitFlag := false |}.

Definition unknownModeConfiguration : FirewallConfiguration :=
  {| Mode := "redirect-everything";
     PortsToRedirectInbound := [8080; 9090];
     InboundPortsToIgnore := [4190; 4191];
     OutboundPortsToIgnore := [443];
     ProxyInboundPort := 4143;
     ProxyOutgoingPort := 4140;
     ProxyUID := 2102;
     SimulateOnly := false;
     NetNs := "";
     UseWaitFlag := false |}.

Definition simulatedConfiguration : FirewallConfiguration :=
  {| Mode := RedirectAllMode;
     PortsToRedirectInbound := [];
     InboundPortsToIgnore := [4190; 4191];
     OutboundPortsToIgnore := [443];
     ProxyInboundPort := 4143;
     ProxyOutgoingPort := 4140;
     ProxyUID := 2102;
     SimulateOnly := true;
     NetNs := "";
     UseWaitFlag := false |}.

Definition namespacedConfiguration : FirewallConfiguration :=
  {| Mode := RedirectAllMode;
     PortsToRedirectInbound := [];
     InboundPortsToIgnore := [4190; 4191];
     OutboundPortsToIgnore := [443];
     ProxyInboundPort := 4143;
     ProxyOutgoingPort := 4140;
     ProxyUID := 2102;
     SimulateOnly := false;
     NetNs := "/proc/4242/ns/net";
     UseWaitFlag := true |}.

Definition hasArg (a : string) (cmd : Cmd) : bool :=
  existsb (String.eqb a) (Args cmd).

(** A machine on which the chains do not exist yet: deleting a jump,
    flushing and deleting a chain fail, everything else works. *)
Definition firstRunBoundary (cmd : Cmd) (w : unit) : (string * option string) * unit :=
  if hasArg "-D" cmd || hasArg "-F" cmd || hasArg "-X" cmd
  then (("iptables: No chain/target/match by that name.", Some "exit status 1"), w)
  else (("", None), w).

(** The same machine without the owner match: a rule that uses it is
    refused. *)
Definition noOwnerMatchBoundary (cmd : Cmd) (w : unit) : (string * option string) * unit :=
  if hasArg "owner" cmd
  then (("iptables: No chain/target/match by that name.", Some "exit status 2"), w)
  else firstRunBoundary cmd w.

(** A machine without the tools. *)
Definition noToolBoundary (cmd : Cmd) (w : unit) : (string * option string) * unit :=
  (("", Some "executable file not found in $PATH"), w).

(** A machine on which everything works. *)
Definition workingBoundary (cmd : Cmd) (w : unit) : (string * option string) * unit :=
  (("", None), w).

(** The world counts the processes started; [iptables-save] works as the
    first of them and fails afterwards. *)
Definition lateDumpFailureBoundary (cmd : Cmd) (started : nat)
    : (string * option string) * nat :=
  if (Path cmd =? "iptables-save")%string && (0 <? started)%nat
  then (("", Some "exit status 1"), S started)
  else (("", None), S started).

(** ** Reading a command back

    What a rule says is read off its argument vector, the way [iptables]
    does: the value of an option is the argument that follows it. *)

Fixpoint optionValue (key : string) (args : list string) : option string :=
  match args with
  | [] => None
  | a :: rest => if (a =? key)%string then hd_error rest else optionValue key rest
  end.

(** [-j]: the target of the rule. *)
Definition jumpTarget (cmd : Cmd) : option string := optionValue "-j" (Args cmd).

(** [--comment]: the comment the rule carries, if any. *)
Definition commentOf (cmd : Cmd) : option string := optionValue "--comment" (Args cmd).

(** A redirect rule hands the packet to [REDIRECT]; an exemption rule
    ends the traversal of the chain with [RETURN]. *)
Definition isRedirectRule (cmd : Cmd) : bool :=
  match jumpTarget cmd with
  | Some t => (t =? "REDIRECT")%string
  | None => false
  end.

Definition isExemptionRule (cmd : Cmd) : bool :=
  match jumpTarget cmd with
  | Some t => (t =? "RETURN")%string
  | None => false
  end.

(** The destination port a rule is conditional on, and the port it
    redirects to. *)
Definition destinationPortOf (cmd : Cmd) : option string :=
  optionValue "--destination-port" (Args cmd).

Definition toPortOf (cmd : Cmd) : option string :=
  optionValue "--to-port" (Args cmd).

(** The chain a command works on: the argument after the action
    ([-N], [-A], [-D], [-F], [-X]), the fifth of the vector. *)
Definition chainOf (cmd : Cmd) : string := nth 4 (Args cmd) "".

(** The side of the packet path a command belongs to: the inbound side
    works on [PROXY_INIT_REDIRECT] and [PREROUTING]. *)
Definition onInboundSide (cmd : Cmd) : bool :=
  (chainOf cmd =? redirectChainName)%string
  || (chainOf cmd =? IptablesPreroutingChainName)%string.

(** In the sequence [l], every command of [xs] stands before every command
    of [ys]. *)
Definition Precedes (xs ys l : list Cmd) : Prop :=
  forall i j x y,
    nth_error l i = Some x -> In x xs ->
    nth_error l j = Some y -> In y ys ->
    (i < j)%nat.

Definition isDigit (c : ascii) : bool :=
  match c with
  | "0" | "1" | "2" | "3" | "4" | "5" | "6" | "7" | "8" | "9" => true
  | _ => false
  end%char.

(** ** The rule primitives

    [ExecutionTraceID] is a package variable initialised once, when the
    program starts, from the clock: [strconv.Itoa(int(time.Now().Unix()))].
    The Unix time of the start of the run is the section variable [now]. *)

Section Run.

Variable now : Z.

Definition ExecutionTraceID : string := Itoa now.

Definition formatComment (text : string) : string :=
  ("proxy-init/" ++ text ++ "/" ++ ExecutionTraceID)%string.

Definition makeIgnoreUserID (chainName : string) (uid : Z) (comment : string) : Cmd :=
  Command "iptables"
    ["-t"; "nat";
     "-A"; chainName;
     "-m"; "owner";
     "--uid-owner"; Itoa uid;
     "-j"; "RETURN";
     "-m"; "comment";
     "--comment"; formatComment comment].

Definition makeCreateNewChain (name : string) (comment : string) : Cmd :=
  Command "iptables"
    ["-t"; "nat";
     "-N"; name;
     "-m"; "comment";
     "--comment"; formatComment comment].

Definition makeFlushChain (name : string) : Cmd :=
  Command "iptables"
    ["-t"; "nat";
     "-F"; name].

Definition makeDeleteChain (name : string) : Cmd :=
  Command "iptables"
    ["-t"; "nat";
     "-X"; name].

Definition makeRedirectChainToPort (chainName : string) (portToRedirect : Z)
    (comment : string) : Cmd :=
  Command "iptables"
    ["-t"; "nat";
     "-A"; chainName;
     "-p"; "tcp";
     "-j"; "REDIRECT";
     "--to-port"; Itoa portToRedirect;
     "-m"; "comment";
     "--comment"; formatComment comment].

Definition makeIgnorePort (chainName : string) (portToIgnore : Z) (comment : string) : Cmd :=
  Command "iptables"
    ["-t"; "nat";
     "-A"; chainName;
     "-p"; "tcp";
     "--destination-port"; Itoa portToIgnore;
     "-j"; "RETURN";
     "-m"; "comment";
     "--comment"; formatComment comment].

Definition makeIgnoreLoopback (chainName : string) (comment : string) : Cmd :=
  Command "iptables"
    ["-t"; "nat";
     "-A"; chainName;
     "-o"; "lo";
     "-j"; "RETURN";
     "-m"; "comment";
     "--comment"; formatComment comment].

Definition makeRedirectChainToPortBasedOnDestinationPort (chainName : string)
    (destinationPort : Z) (portToRedirect : Z) (comment : string) : Cmd :=
  Command "iptables"
    ["-t"; "nat";
     "-A"; chainName;
     "-p"; "tcp";
     "--destination-port"; Itoa destinationPort;
     "-j"; "REDIRECT";
     "--to-port"; Itoa portToRedirect;
     "-m"; "comment";
     "--comment"; formatComment comment].

Definition makeJumpFromChainToAnotherForAllProtocols (chainName : string)
    (targetChain : string) (comment : string) (delete : bool) : Cmd :=
  let action := if delete then "-D" else "-A" in
  Command "iptables"
    ["-t"; "nat";
     action; chainName;
     "-j"; targetChain;
     "-m"; "comment";
     "--comment"; formatComment comment].

Definition makeRedirectChainForOutgoingTraffic (chainName : string)
    (redirectChainName : string) (uid : Z) (comment : string) : Cmd :=
  Command "iptables"
    ["-t"; "nat";
     "-A"; chainName;
     "-m"; "owner";
     "--uid-owner"; Itoa uid;
     "-o"; "lo";
     "!"; "-d 127.0.0.1/32";
     "-j"; redirectChainName;
     "-m"; "comment";
     "--comment"; formatComment comment].

Definition makeShowAllRules : Cmd := Command "iptables-save" [].

(** ** The composer

    Each function receives the slice built so far and appends to it; a
    [for ... range] loop that appends is a left fold. *)

Definition addRulesForIgnoredPorts (portsToIgnore : list Z) (chainName : string)
    (commands : list Cmd) : list Cmd :=
  fold_left
    (fun commands ignoredPort =>
       append commands
         (makeIgnorePort chainName ignoredPort
            ("ignore-port-" ++ Itoa ignoredPort)%string))
    portsToIgnore commands.

Definition addRulesForInboundPortRedirect (firewallConfiguration : FirewallConfiguration)
    (chainName : string) (commands : list Cmd) : list Cmd :=
  if (Mode firewallConfiguration =? RedirectAllMode)%string then
    append commands
      (makeRedirectChainToPort chainName
         (ProxyInboundPort firewallConfiguration)
         "redirect-all-incoming-to-proxy-port")
  else if (Mode firewallConfiguration =? RedirectListedMode)%string then
    fold_left
      (fun commands port =>
         append commands
           (makeRedirectChainToPortBasedOnDestinationPort
              chainName
              port
              (ProxyInboundPort firewallConfiguration)
              ("redirect-port-" ++ Itoa port ++ "-to-proxy-port")%string))
      (PortsToRedirectInbound firewallConfiguration) commands
  else commands.

Definition addOutgoingTrafficRules (commands : list Cmd)
    (firewallConfiguration : FirewallConfiguration) : list Cmd :=
  let commands :=
    append commands (makeCreateNewChain outputChainName "redirect-common-chain") in
  let commands :=
    if 0 <? ProxyUID firewallConfiguration then
      let commands :=
        append commands
          (makeRedirectChainForOutgoingTraffic outputChainName redirectChainName
             (ProxyUID firewallConfiguration)
             "redirect-non-loopback-local-traffic") in
      append commands
        (makeIgnoreUserID outputChainName (ProxyUID firewallConfiguration)
           "ignore-proxy-user-id")
    else commands in
  let commands :=
    append commands (makeIgnoreLoopback outputChainName "ignore-loopback") in
  let commands :=
    addRulesForIgnoredPorts (OutboundPortsToIgnore firewallConfiguration)
      outputChainName commands in
  let commands :=
    append commands
      (makeRedirectChainToPort outputChainName
         (ProxyOutgoingPort firewallConfiguration)
         "redirect-all-outgoing-to-proxy-port") in
  append commands
    (makeJumpFromChainToAnotherForAllProtocols
       IptablesOutputChainName
       outputChainName
       "install-proxy-init-output"
       false).

Definition addIncomingTrafficRules (commands : list Cmd)
    (firewallConfiguration : FirewallConfiguration) : list Cmd :=
  let commands :=
    append commands (makeCreateNewChain redirectChainName "redirect-common-chain") in
  let commands :=
    addRulesForIgnoredPorts (InboundPortsToIgnore firewallConfiguration)
      redirectChainName commands in
  let commands :=
    addRulesForInboundPortRedirect firewallConfiguration redirectChainName commands in
  append commands
    (makeJumpFromChainToAnotherForAllProtocols
       IptablesPreroutingChainName
       redirectChainName
       "install-proxy-init-prerouting"
       false).

(** The slice that [ConfigureFirewall] builds between "configuration" and
    "adding rules": it starts empty, the incoming rules are added, then
    the outgoing ones. *)
Definition composedCommands (firewallConfiguration : FirewallConfiguration) : list Cmd :=
  let commands := [] in
  let commands := addIncomingTrafficRules commands firewallConfiguration in
  addOutgoingTrafficRules commands firewallConfiguration.

(** ** The two transactions and their rules, by name *)

Definition outboundTransaction (firewallConfiguration : FirewallConfiguration) : list Cmd :=
  addOutgoingTrafficRules [] firewallConfiguration.

Definition inboundTransaction (firewallConfiguration : FirewallConfiguration) : list Cmd :=
  addIncomingTrafficRules [] firewallConfiguration.

Definition createOutputChain : Cmd :=
  makeCreateNewChain outputChainName "redirect-common-chain".

Definition hairpinRule (firewallConfiguration : FirewallConfiguration) : Cmd :=
  makeRedirectChainForOutgoingTraffic outputChainName redirectChainName
    (ProxyUID firewallConfiguration) "redirect-non-loopback-local-traffic".

Definition identityExemptionRule (firewallConfiguration : FirewallConfiguration) : Cmd :=
  makeIgnoreUserID outputChainName (ProxyUID firewallConfiguration) "ignore-proxy-user-id".

Definition loopbackExemptionRule : Cmd :=
  makeIgnoreLoopback outputChainName "ignore-loopback".

Definition portExemptionRule (chainName : string) (port : Z) : Cmd :=
  makeIgnorePort chainName port ("ignore-port-" ++ Itoa port)%string.

Definition catchAllRedirectRule (firewallConfiguration : FirewallConfiguration) : Cmd :=
  makeRedirectChainToPort outputChainName (ProxyOutgoingPort firewallConfiguration)
    "redirect-all-outgoing-to-proxy-port".

Definition outputJumpRule : Cmd :=
  makeJumpFromChainToAnotherForAllProtocols IptablesOutputChainName outputChainName
    "install-proxy-init-output" false.

Definition createRedirectChain : Cmd :=
  makeCreateNewChain redirectChainName "redirect-common-chain".

Definition inboundRedirectAllRule (firewallConfiguration : FirewallConfiguration) : Cmd :=
  makeRedirectChainToPort redirectChainName (ProxyInboundPort firewallConfiguration)
    "redirect-all-incoming-to-proxy-port".

Definition inboundRedirectPortRule (firewallConfiguration : FirewallConfiguration)
    (port : Z) : Cmd :=
  makeRedirectChainToPortBasedOnDestinationPort redirectChainName port
    (ProxyInboundPort firewallConfiguration)
    ("redirect-port-" ++ Itoa port ++ "-to-proxy-port")%string.

Definition preroutingJumpRule : Cmd :=
  makeJumpFromChainToAnotherForAllProtocols IptablesPreroutingChainName redirectChainName
    "install-proxy-init-prerouting" false.

(** The identity rules of the outbound chain: present when [ProxyUID] is
    positive. *)
Definition identityRules (firewallConfiguration : FirewallConfiguration) : list Cmd :=
  if 0 <? ProxyUID firewallConfiguration
  then [hairpinRule firewallConfiguration; identityExemptionRule firewallConfiguration]
  else [].

(** The redirect rules of the inbound chain, by mode. *)
Definition inboundRedirectRules (cfg : FirewallConfiguration) : list Cmd :=
  if (Mode cfg =? RedirectAllMode)%string then [inboundRedirectAllRule cfg]
  else if (Mode cfg =? RedirectListedMode)%string
       then map (inboundRedirectPortRule cfg) (PortsToRedirectInbound cfg)
       else [].

(** ** The execution boundary

    [cmd.CombinedOutput()] starts the process [Path cmd] with the argument
    vector [Args cmd], waits for it, and returns what it printed and an
    error when it could not be started or exited with a failure.  What the
    process does to the machine is outside the program: the boundary is a
    function of an abstract [World], arbitrary throughout.

    A computation of the driver returns a value, the world it leaves, and
    the record of the processes it started, each with the error it gave:
    what a test double in place of [CombinedOutput] would have recorded. *)

Variable World : Type.
Variable error : Type.
Variable CombinedOutput : Cmd -> World -> (string * option error) * World.

Definition Dispatch : Type := (Cmd * option error)%type.

Record Outcome (A : Type) : Type := {
  value : A;
  dispatched : list Dispatch;
  world : World
}.

Definition Driver (A : Type) : Type := World -> Outcome A.

Definition ret (A : Type) (a : A) : Driver A :=
  fun w => {| value := a; dispatched := []; world := w |}.

Definition bind (A B : Type) (m : Driver A) (k : A -> Driver B) : Driver B :=
  fun w =>
    let o1 := m w in
    let o2 := k (value o1) (world o1) in
    {| value := value o2;
       dispatched := dispatched o1 ++ dispatched o2;
       world := world o2 |}.

Notation "x <- m ;; k" := (bind m (fun x => k))
  (at level 61, m at next level, right associativity).
Notation "m ;;; k" := (bind m (fun _ => k))
  (at level 61, right associativity).

Definition runCombinedOutput (cmd : Cmd) : Driver (string * option error) :=
  fun w =>
    let '(out, err, w') := CombinedOutput cmd w in
    {| value := (out, err); dispatched := [(cmd, err)]; world := w' |}.

(** ** The driver *)

Definition executeCommand (firewallConfiguration : FirewallConfiguration)
    (cmd : Cmd) : Driver (option error) :=
  let cmd :=
    if UseWaitFlag firewallConfiguration
    then set_Args cmd (append (Args cmd) "-w")
    else cmd in
  if SimulateOnly firewallConfiguration then ret None
  else
    let cmd :=
      if (0 <? String.length (NetNs firewallConfiguration))%nat
      then set_Args cmd
             (["nsenter"; "--net"; NetNs firewallConfiguration] ++ Args cmd)
      else cmd in
    r <- runCombinedOutput cmd ;;
    match snd r with
    | Some err => ret (Some err)
    | None => ret None
    end.

(** [for _, chain := range chains]: flush, then delete, errors discarded. *)
Fixpoint cleanupChains (firewallConfiguration : FirewallConfiguration)
    (chains : list string) : Driver unit :=
  match chains with
  | [] => ret tt
  | chain :: chains =>
      executeCommand firewallConfiguration (makeFlushChain chain) ;;;
      executeCommand firewallConfiguration (makeDeleteChain chain) ;;;
      cleanupChains firewallConfiguration chains
  end.

(** [for _, cmd := range commands]: the first error leaves the loop and
    the function. *)
Fixpoint addingRules (firewallConfiguration : FirewallConfiguration)
    (commands : list Cmd) : Driver (option error) :=
  match commands with
  | [] => ret None
  | cmd :: commands =>
      err <- executeCommand firewallConfiguration cmd ;;
      match err with
      | Some err => ret (Some err)
      | None => addingRules firewallConfiguration commands
      end
  end.

Definition ConfigureFirewall (firewallConfiguration : FirewallConfiguration)
    : Driver (option error) :=
  err <- executeCommand firewallConfiguration makeShowAllRules ;;
  match err with
  | Some err => ret (Some err)
  | None =>
      executeCommand firewallConfiguration
        (makeJumpFromChainToAnotherForAllProtocols
           IptablesOutputChainName
           outputChainName
           "install-proxy-init-prerouting"
           true) ;;;
      executeCommand firewallConfiguration
        (makeJumpFromChainToAnotherForAllProtocols
           IptablesPreroutingChainName
           redirectChainName
           "install-proxy-init-prerouting"
           true) ;;;
      cleanupChains firewallConfiguration [outputChainName; redirectChainName] ;;;
      let commands := composedCommands firewallConfiguration in
      err <- addingRules firewallConfiguration commands ;;
      match err with
      | Some err => ret (Some err)
      | None =>
          executeCommand firewallConfiguration makeShowAllRules ;;;
          ret None
      end
  end.

(** ** The driver, by name *)

(** The command [executeCommand] starts for [cmd] when it starts one: the
    wait flag appended when asked for, then the three namespace arguments
    put in front when [NetNs] is set. *)
Definition startedCommand (cfg : FirewallConfiguration) (cmd : Cmd) : Cmd :=
  let cmd :=
    if UseWaitFlag cfg then set_Args cmd (append (Args cmd) "-w") else cmd in
  if (0 <? String.length (NetNs cfg))%nat
  then set_Args cmd (["nsenter"; "--net"; NetNs cfg] ++ Args cmd)
  else cmd.

(** The six commands of the cleanup phase, in the order of the source. *)
Definition cleanupCommands : list Cmd :=
  [ makeJumpFromChainToAnotherForAllProtocols IptablesOutputChainName outputChainName
      "install-proxy-init-prerouting" true;
    makeJumpFromChainToAnotherForAllProtocols IptablesPreroutingChainName redirectChainName
      "install-proxy-init-prerouting" true;
    makeFlushChain outputChainName;
    makeDeleteChain outputChainName;
    makeFlushChain redirectChainName;
    makeDeleteChain redirectChainName ].

(** A command started that gave no error. *)
Definition succeeded (cfg : FirewallConfiguration) (cmd : Cmd) : Dispatch :=
  (startedCommand cfg cmd, None).

(** The records a run of [ConfigureFirewall] that starts processes can
    leave, with the value it returns: the first dump fails; or the first
    dump works, the six cleanup commands are started with any results, and
    then either an installation command fails after those before it
    worked, or all of them work and the final dump is started with any
    result. *)
Inductive RunShape (cfg : FirewallConfiguration) : list Dispatch -> option error -> Prop :=
| RunNoDump (e : error) :
    RunShape cfg [(startedCommand cfg makeShowAllRules, Some e)] (Some e)
| RunAborted (cleanup : list Dispatch) (pre : list Cmd) (c : Cmd) (post : list Cmd)
    (e : error) :
    map fst cleanup = map (startedCommand cfg) cleanupCommands ->
    composedCommands cfg = pre ++ c :: post ->
    RunShape cfg
      (succeeded cfg makeShowAllRules ::
       cleanup ++ map (succeeded cfg) pre ++ [(startedCommand cfg c, Some e)])
      (Some e)
| RunCompleted (cleanup : list Dispatch) (d : option error) :
    map fst cleanup = map (startedCommand cfg) cleanupCommands ->
    RunShape cfg
      (succeeded cfg makeShowAllRules ::
       cleanup ++ map (succeeded cfg) (composedCommands cfg) ++
       [(startedCommand cfg makeShowAllRules, d)])
      None.

(** The error recorded for a started process is the one the boundary
    gave for it. *)
Definition Recorded (trace : list Dispatch) : Prop :=
  forall c r, In (c, r) trace -> exists w, snd (fst (CombinedOutput c w)) = r.

(** * Facts *)

(** ** Numerals *)

Example Itoa_zero : Itoa 0 = "0".
Proof. reflexivity. Qed.

Example Itoa_port : Itoa 4143 = "4143".
Proof. reflexivity. Qed.

Example Itoa_negative : Itoa (-25) = "-25".
Proof. reflexivity. Qed.

Lemma to_int_proper (i : Z) : Z.to_int i <> Decimal.Pos Decimal.Nil /\ Z.to_int i <> Decimal.Neg Decimal.Nil.
Proof.
  destruct i as [|p|p]; cbn; split; try discriminate;
    intros H; injection H as H; now apply DecimalPos.Unsigned.to_uint_nonnil in H.
Qed.

Lemma Itoa_inj (i j : Z) : Itoa i = Itoa j -> i = j.
Proof.
  unfold Itoa; intros H.
  apply DecimalZ.to_int_inj.
  destruct (to_int_proper i) as [Hi1 Hi2], (to_int_proper j) as [Hj1 Hj2].
  pose proof (NilZero.isi _ Hi1 Hi2) as Ei.
  pose proof (NilZero.isi _ Hj1 Hj2) as Ej.
  rewrite H in Ei; rewrite Ei in Ej; now injection Ej.
Qed.

Lemma string_of_uint_digit (d : Decimal.uint) :
  exists c s, NilZero.string_of_uint d = String c s /\ isDigit c = true.
Proof.
  destruct d; cbn; eauto.
Qed.

Lemma isDigit_dash (c : ascii) : isDigit c = true -> (c =? "-")%char = false.
Proof.
  destruct c as [[] [] [] [] [] [] [] []]; cbn; congruence.
Qed.

(** A numeral is never an option name: those start with a dash that no
    digit follows. *)
Lemma Itoa_eqb_flag (i : Z) (c : ascii) (t : string) :
  isDigit c = false -> (Itoa i =? String "-" (String c t))%string = false.
Proof.
  intros Hc. unfold Itoa, NilZero.string_of_int.
  destruct (Z.to_int i) as [d|d];
    destruct (string_of_uint_digit d) as (a & s & -> & Ha); cbn.
  - now rewrite (isDigit_dash _ Ha).
  - destruct (Ascii.eqb_spec a c) as [->|]; [congruence | reflexivity].
Qed.

(** ** The composer in closed form *)

Lemma addRulesForIgnoredPorts_eq (portsToIgnore : list Z) (chainName : string)
    (commands : list Cmd) :
  addRulesForIgnoredPorts portsToIgnore chainName commands
  = commands ++ map (portExemptionRule chainName) portsToIgnore.
Proof.
  unfold addRulesForIgnoredPorts.
  revert commands; induction portsToIgnore as [|p ps IH]; intros commands; cbn.
  - now rewrite app_nil_r.
  - rewrite IH. unfold append. now rewrite <- app_assoc.
Qed.

Lemma redirect_listed_loop (cfg : FirewallConfiguration) (chainName : string)
    (ports : list Z) (commands : list Cmd) :
  fold_left
    (fun commands port =>
       append commands
      (makeRedirectChainToPortBasedOnDestinationPort chainName port
            (ProxyInboundPort cfg)
            ("redirect-port-" ++ Itoa port ++ "-to-proxy-port")%string))
    ports commands
  = commands ++
    map (fun port =>
           makeRedirectChainToPortBasedOnDestinationPort chainName port
             (ProxyInboundPort cfg)
             ("redirect-port-" ++ Itoa port ++ "-to-proxy-port")%string) ports.
Proof.
  revert commands; induction ports as [|p ps IH]; intros commands; cbn.
  - now rewrite app_nil_r.
  - rewrite IH. unfold append. now rewrite <- app_assoc.
Qed.

Lemma addRulesForInboundPortRedirect_eq (cfg : FirewallConfiguration)
    (commands : list Cmd) :
  addRulesForInboundPortRedirect cfg redirectChainName commands
  = commands ++ inboundRedirectRules cfg.
Proof.
  unfold addRulesForInboundPortRedirect, inboundRedirectRules.
  destruct (Mode cfg =? RedirectAllMode)%string; [reflexivity|].
  destruct (Mode cfg =? RedirectListedMode)%string.
  - apply redirect_listed_loop.
  - now rewrite app_nil_r.
Qed.

Lemma addOutgoingTrafficRules_eq (commands : list Cmd) (cfg : FirewallConfiguration) :
  addOutgoingTrafficRules commands cfg
  = commands ++
    createOutputChain ::
    (identityRules cfg ++
     loopbackExemptionRule ::
     map (portExemptionRule outputChainName) (OutboundPortsToIgnore cfg)) ++
    [catchAllRedirectRule cfg; outputJumpRule].
Proof.
  unfold addOutgoingTrafficRules, identityRules.
  rewrite addRulesForIgnoredPorts_eq. unfold append.
  destruct (0 <? ProxyUID cfg); repeat (rewrite <- app_assoc; cbn [app]); reflexivity.
Qed.

Lemma addIncomingTrafficRules_eq (commands : list Cmd) (cfg : FirewallConfiguration) :
  addIncomingTrafficRules commands cfg
  = commands ++
    createRedirectChain ::
    map (portExemptionRule redirectChainName) (InboundPortsToIgnore cfg) ++
    inboundRedirectRules cfg ++ [preroutingJumpRule].
Proof.
  unfold addIncomingTrafficRules.
  rewrite addRulesForInboundPortRedirect_eq, addRulesForIgnoredPorts_eq. unfold append.
  repeat (rewrite <- app_assoc; cbn [app]); reflexivity.
Qed.

Lemma composedCommands_eq (cfg : FirewallConfiguration) :
  composedCommands cfg = inboundTransaction cfg ++ outboundTransaction cfg.
Proof.
  unfold composedCommands, inboundTransaction, outboundTransaction.
  rewrite (addOutgoingTrafficRules_eq (addIncomingTrafficRules [] cfg)).
  now rewrite (addOutgoingTrafficRules_eq []).
Qed.

(** ** Reading the rules back *)

Lemma formatComment_eqb_flag (text t : string) :
  (formatComment text =? String "-" t)%string = false.
Proof. reflexivity. Qed.

Ltac read_rule :=
  unfold isRedirectRule, isExemptionRule, jumpTarget, commentOf, destinationPortOf,
    toPortOf, chainOf,
    createOutputChain, hairpinRule, identityExemptionRule, loopbackExemptionRule,
    portExemptionRule, catchAllRedirectRule, outputJumpRule, createRedirectChain,
    inboundRedirectAllRule, inboundRedirectPortRule, preroutingJumpRule,
    makeIgnoreUserID, makeCreateNewChain, makeFlushChain, makeDeleteChain,
    makeRedirectChainToPort, makeIgnorePort, makeIgnoreLoopback,
    makeRedirectChainToPortBasedOnDestinationPort,
    makeJumpFromChainToAnotherForAllProtocols, makeRedirectChainForOutgoingTraffic,
    makeShowAllRules, Command;
  cbn [Args Path optionValue hd_error nth];
  repeat first
    [ rewrite Itoa_eqb_flag by reflexivity
    | rewrite formatComment_eqb_flag
    | progress cbn [Args Path optionValue hd_error nth String.eqb Ascii.eqb Bool.eqb
                    outputChainName redirectChainName IptablesOutputChainName
                    IptablesPreroutingChainName] ].

Lemma portExemptionRule_read (port : Z) :
  (isExemptionRule (portExemptionRule outputChainName port) = true
   /\ isRedirectRule (portExemptionRule outputChainName port) = false)
  /\ (isExemptionRule (portExemptionRule redirectChainName port) = true
      /\ isRedirectRule (portExemptionRule redirectChainName port) = false).
Proof. repeat split; read_rule; reflexivity. Qed.

Lemma inboundRedirectPortRule_read (cfg : FirewallConfiguration) (port : Z) :
  isRedirectRule (inboundRedirectPortRule cfg port) = true
  /\ isExemptionRule (inboundRedirectPortRule cfg port) = false
  /\ destinationPortOf (inboundRedirectPortRule cfg port) = Some (Itoa port)
  /\ toPortOf (inboundRedirectPortRule cfg port) = Some (Itoa (ProxyInboundPort cfg)).
Proof. repeat split; read_rule; reflexivity. Qed.

Lemma inboundRedirectAllRule_read (cfg : FirewallConfiguration) :
  isRedirectRule (inboundRedirectAllRule cfg) = true
  /\ destinationPortOf (inboundRedirectAllRule cfg) = None
  /\ toPortOf (inboundRedirectAllRule cfg) = Some (Itoa (ProxyInboundPort cfg)).
Proof. repeat split; read_rule; reflexivity. Qed.

Lemma filter_map_keep (A B : Type) (p : B -> bool) (f : A -> B) (l : list A) :
  (forall a, p (f a) = true) -> filter p (map f l) = map f l.
Proof.
  intros H; induction l as [|a l IH]; cbn; [reflexivity|].
  now rewrite H, IH.
Qed.

Lemma filter_map_drop (A B : Type) (p : B -> bool) (f : A -> B) (l : list A) :
  (forall a, p (f a) = false) -> filter p (map f l) = [].
Proof.
  intros H; induction l as [|a l IH]; cbn; [reflexivity|].
  now rewrite H.
Qed.

Lemma identityRules_read (cfg : FirewallConfiguration) :
  filter isRedirectRule (identityRules cfg) = []
  /\ filter isExemptionRule (identityRules cfg)
     = if 0 <? ProxyUID cfg then [identityExemptionRule cfg] else [].
Proof.
  unfold identityRules; destruct (0 <? ProxyUID cfg); split; try reflexivity;
    cbn [filter]; read_rule; reflexivity.
Qed.

(** ** The outbound transaction *)

Lemma outboundTransaction_eq (cfg : FirewallConfiguration) :
  outboundTransaction cfg
  = createOutputChain ::
    (identityRules cfg ++
     loopbackExemptionRule ::
     map (portExemptionRule outputChainName) (OutboundPortsToIgnore cfg)) ++
    [catchAllRedirectRule cfg; outputJumpRule].
Proof. unfold outboundTransaction. now rewrite addOutgoingTrafficRules_eq. Qed.

(** C1.  In the outbound transaction every exemption rule (a rule whose
    target is RETURN: identity, loopback, ignored ports) stands strictly
    before the catch-all redirect to [ProxyOutgoingPort], which is the only
    redirect rule of the transaction; the transaction is the chain
    creation, the hairpin jump and the identity exemption when [ProxyUID]
    is positive, the loopback exemption, one port exemption per entry of
    [OutboundPortsToIgnore] in the list's order, the catch-all redirect,
    and the jump from OUTPUT into the chain, in this order. *)
Theorem C1_outbound_exemptions_before_catch_all (cfg : FirewallConfiguration) :
  let rules :=
    identityRules cfg ++
    loopbackExemptionRule ::
    map (portExemptionRule outputChainName) (OutboundPortsToIgnore cfg) in
  let catchAll := S (List.length rules) in
  outboundTransaction cfg
  = createOutputChain :: rules ++ [catchAllRedirectRule cfg; outputJumpRule]
  /\ nth_error (outboundTransaction cfg) catchAll = Some (catchAllRedirectRule cfg)
  /\ (forall i c,
        nth_error (outboundTransaction cfg) i = Some c ->
        isExemptionRule c = true -> (i < catchAll)%nat)
  /\ filter isRedirectRule (outboundTransaction cfg) = [catchAllRedirectRule cfg]
  /\ filter isExemptionRule (outboundTransaction cfg)
     = (if 0 <? ProxyUID cfg then [identityExemptionRule cfg] else []) ++
       loopbackExemptionRule ::
       map (portExemptionRule outputChainName) (OutboundPortsToIgnore cfg)
  /\ (0 < ProxyUID cfg ->
      outboundTransaction cfg
      = createOutputChain ::
        hairpinRule cfg ::
        identityExemptionRule cfg ::
        loopbackExemptionRule ::
        map (portExemptionRule outputChainName) (OutboundPortsToIgnore cfg) ++
        [catchAllRedirectRule cfg; outputJumpRule]).
Proof.
  intros rules catchAll.
  assert (E : outboundTransaction cfg
              = createOutputChain :: rules ++ [catchAllRedirectRule cfg; outputJumpRule]).
  { apply outboundTransaction_eq. }
  assert (Hcatch : isExemptionRule (catchAllRedirectRule cfg) = false)
    by (read_rule; reflexivity).
  assert (Hjump : isExemptionRule outputJumpRule = false) by (read_rule; reflexivity).
  destruct (identityRules_read cfg) as [Hid1 Hid2].
  rewrite E. repeat split.
  - unfold catchAll. cbn [nth_error].
    rewrite nth_error_app2 by lia. now rewrite Nat.sub_diag.
  - intros i c Hi Hc.
    destruct (Nat.lt_ge_cases i catchAll) as [|Hge]; [assumption|exfalso].
    unfold catchAll in Hge.
    destruct i as [|i]; [lia|]. cbn [nth_error] in Hi.
    rewrite nth_error_app2 in Hi by lia.
    destruct (i - List.length rules)%nat as [|[|k]]; cbn in Hi.
    + injection Hi as <-. congruence.
    + injection Hi as <-. congruence.
    + now destruct k.
  - unfold rules. cbn [filter].
    replace (isRedirectRule createOutputChain) with false by (read_rule; reflexivity).
    rewrite !filter_app. cbn [filter]. rewrite Hid1.
    replace (isRedirectRule loopbackExemptionRule) with false by (read_rule; reflexivity).
    replace (isRedirectRule (catchAllRedirectRule cfg)) with true by (read_rule; reflexivity).
    replace (isRedirectRule outputJumpRule) with false by (read_rule; reflexivity).
    rewrite filter_map_drop by (intros a; apply portExemptionRule_read).
    reflexivity.
  - unfold rules. cbn [filter].
    replace (isExemptionRule createOutputChain) with false by (read_rule; reflexivity).
    rewrite !filter_app. cbn [filter]. rewrite Hid2, Hcatch, Hjump.
    replace (isExemptionRule loopbackExemptionRule) with true by (read_rule; reflexivity).
    rewrite filter_map_keep by (intros a; apply portExemptionRule_read).
    now rewrite app_nil_r.
  - intros Huid. unfold rules, identityRules.
    apply Z.ltb_lt in Huid. now rewrite Huid.
Qed.

(** ** The inbound transaction *)

Lemma inboundTransaction_eq (cfg : FirewallConfiguration) :
  inboundTransaction cfg
  = createRedirectChain ::
    map (portExemptionRule redirectChainName) (InboundPortsToIgnore cfg) ++
    inboundRedirectRules cfg ++ [preroutingJumpRule].
Proof. unfold inboundTransaction. now rewrite addIncomingTrafficRules_eq. Qed.

Lemma inboundTransaction_redirects (cfg : FirewallConfiguration) :
  filter isRedirectRule (inboundTransaction cfg) = inboundRedirectRules cfg.
Proof.
  rewrite inboundTransaction_eq. cbn [filter].
  replace (isRedirectRule createRedirectChain) with false by (read_rule; reflexivity).
  rewrite !filter_app. cbn [filter].
  replace (isRedirectRule preroutingJumpRule) with false by (read_rule; reflexivity).
  rewrite filter_map_drop by (intros a; apply portExemptionRule_read).
  rewrite app_nil_r. cbn [app].
  unfold inboundRedirectRules.
  destruct (Mode cfg =? RedirectAllMode)%string.
  - cbn [filter]. now rewrite (proj1 (inboundRedirectAllRule_read cfg)).
  - destruct (Mode cfg =? RedirectListedMode)%string; [|reflexivity].
    apply filter_map_keep. intros a. apply inboundRedirectPortRule_read.
Qed.

(** C3.  In redirect-listed mode the redirect rules of the inbound
    transaction are exactly one rule per element of
    [PortsToRedirectInbound], in the list's order, each conditional on that
    destination port and redirecting to [ProxyInboundPort]; the chain
    creation and the jump from PREROUTING are there whatever the list, and
    with an empty list there is no redirect rule. *)
Theorem C3_redirect_listed_one_rule_per_port (cfg : FirewallConfiguration) :
  Mode cfg = RedirectListedMode ->
  filter isRedirectRule (inboundTransaction cfg)
  = map (inboundRedirectPortRule cfg) (PortsToRedirectInbound cfg)
  /\ map (fun c => (destinationPortOf c, toPortOf c))
         (filter isRedirectRule (inboundTransaction cfg))
     = map (fun port => (Some (Itoa port), Some (Itoa (ProxyInboundPort cfg))))
         (PortsToRedirectInbound cfg)
  /\ inboundTransaction cfg
     = createRedirectChain ::
       map (portExemptionRule redirectChainName) (InboundPortsToIgnore cfg) ++
       map (inboundRedirectPortRule cfg) (PortsToRedirectInbound cfg) ++
       [preroutingJumpRule]
  /\ (PortsToRedirectInbound cfg = [] ->
      filter isRedirectRule (inboundTransaction cfg) = []
      /\ In createRedirectChain (inboundTransaction cfg)
      /\ In preroutingJumpRule (inboundTransaction cfg)).
Proof.
  intros Hmode.
  assert (R : inboundRedirectRules cfg
              = map (inboundRedirectPortRule cfg) (PortsToRedirectInbound cfg)).
  { unfold inboundRedirectRules. now rewrite Hmode. }
  rewrite inboundTransaction_redirects, inboundTransaction_eq, R.
  split; [reflexivity|]. split; [|split; [reflexivity|]].
  - rewrite map_map. apply map_ext. intros port.
    destruct (inboundRedirectPortRule_read cfg port) as (_ & _ & -> & ->). reflexivity.
  - intros ->. split; [reflexivity|]. split.
    + now left.
    + right. rewrite !in_app_iff. right; right. now left.
Qed.

(** C4.  In redirect-all mode the inbound transaction has exactly one
    redirect rule; it is conditional on no destination port and redirects
    to [ProxyInboundPort]; the transaction is the same whatever
    [PortsToRedirectInbound] holds. *)
Theorem C4_redirect_all_one_unconditional_rule (cfg : FirewallConfiguration) :
  Mode cfg = RedirectAllMode ->
  filter isRedirectRule (inboundTransaction cfg) = [inboundRedirectAllRule cfg]
  /\ destinationPortOf (inboundRedirectAllRule cfg) = None
  /\ toPortOf (inboundRedirectAllRule cfg) = Some (Itoa (ProxyInboundPort cfg))
  /\ (forall ports,
        inboundTransaction (withPortsToRedirectInbound cfg ports)
        = inboundTransaction cfg).
Proof.
  intros Hmode.
  assert (R : forall ports,
             inboundRedirectRules (withPortsToRedirectInbound cfg ports)
             = [inboundRedirectAllRule cfg]).
  { intros ports. unfold inboundRedirectRules. cbn [Mode withPortsToRedirectInbound].
    now rewrite Hmode. }
  assert (R0 : inboundRedirectRules cfg = [inboundRedirectAllRule cfg]).
  { unfold inboundRedirectRules. now rewrite Hmode. }
  rewrite inboundTransaction_redirects, R0.
  destruct (inboundRedirectAllRule_read cfg) as (_ & Hd & Ht).
  split; [reflexivity|]. split; [assumption|]. split; [assumption|].
  intros ports. rewrite !inboundTransaction_eq, R, R0. reflexivity.
Qed.

(** ** The order of the two transactions *)

Lemma inboundTransaction_side (cfg : FirewallConfiguration) (c : Cmd) :
  In c (inboundTransaction cfg) -> onInboundSide c = true.
Proof.
  rewrite inboundTransaction_eq. cbn [In]. rewrite !in_app_iff. cbn [In].
  unfold inboundRedirectRules.
  intros [<-|[H|[H|[<-|[]]]]]; try (unfold onInboundSide; read_rule; reflexivity).
  { apply in_map_iff in H as (p & <- & _). unfold onInboundSide; read_rule; reflexivity. }
  destruct (Mode cfg =? RedirectAllMode)%string.
  - destruct H as [<-|[]]. unfold onInboundSide; read_rule; reflexivity.
  - destruct (Mode cfg =? RedirectListedMode)%string; [|destruct H].
    apply in_map_iff in H as (p & <- & _). unfold onInboundSide; read_rule; reflexivity.
Qed.

Lemma outboundTransaction_side (cfg : FirewallConfiguration) (c : Cmd) :
  In c (outboundTransaction cfg) -> onInboundSide c = false.
Proof.
  rewrite outboundTransaction_eq.
  cbn [In]. rewrite !in_app_iff. cbn [In].
  unfold identityRules.
  intros [<-|[[H|[<-|H]]|[<-|[<-|[]]]]];
    try (unfold onInboundSide; read_rule; reflexivity).
  2: { apply in_map_iff in H as (p & <- & _). unfold onInboundSide; read_rule; reflexivity. }
  destruct (0 <? ProxyUID cfg); [|destruct H].
  destruct H as [<-|[<-|[]]]; unfold onInboundSide; read_rule; reflexivity.
Qed.

Lemma Precedes_app (side : Cmd -> bool) (xs ys : list Cmd) :
  (forall x, In x xs -> side x = true) ->
  (forall y, In y ys -> side y = false) ->
  Precedes xs ys (xs ++ ys).
Proof.
  intros Hx Hy i j x y Hi Hxi Hj Hyj.
  assert (i < List.length xs)%nat.
  { destruct (Nat.lt_ge_cases i (List.length xs)) as [|Hge]; [assumption|exfalso].
    rewrite nth_error_app2 in Hi by assumption.
    apply nth_error_In in Hi. specialize (Hy _ Hi).
    specialize (Hx _ Hxi). congruence. }
  assert (List.length xs <= j)%nat.
  { destruct (Nat.lt_ge_cases j (List.length xs)) as [Hlt|]; [exfalso|assumption].
    rewrite nth_error_app1 in Hj by assumption.
    apply nth_error_In in Hj. specialize (Hx _ Hj). specialize (Hy _ Hyj). congruence. }
  lia.
Qed.

(** C2, as the code has it.  The installation sequence is the inbound
    (PREROUTING-side) transaction followed by the outbound (OUTPUT-side)
    one: every mutation of the inbound transaction precedes every mutation
    of the outbound transaction. *)
Theorem C2_inbound_transaction_first (cfg : FirewallConfiguration) :
  composedCommands cfg = inboundTransaction cfg ++ outboundTransaction cfg
  /\ Precedes (inboundTransaction cfg) (outboundTransaction cfg) (composedCommands cfg).
Proof.
  split; [apply composedCommands_eq|].
  rewrite composedCommands_eq.
  apply Precedes_app with (side := onInboundSide).
  - apply inboundTransaction_side.
  - apply outboundTransaction_side.
Qed.

(** ** The driver *)

Lemma executeCommand_simulated (cfg : FirewallConfiguration) (cmd : Cmd) (w : World) :
  SimulateOnly cfg = true ->
  executeCommand cfg cmd w = {| value := None; dispatched := []; world := w |}.
Proof. intros H. unfold executeCommand. now rewrite H. Qed.

Lemma executeCommand_started (cfg : FirewallConfiguration) (cmd : Cmd) (w : World) :
  SimulateOnly cfg = false ->
  executeCommand cfg cmd w
  = let r := CombinedOutput (startedCommand cfg cmd) w in
    {| value := snd (fst r);
       dispatched := [(startedCommand cfg cmd, snd (fst r))];
       world := snd r |}.
Proof.
  intros H. unfold executeCommand, startedCommand, bind, runCombinedOutput. rewrite H.
  cbv zeta.
  destruct (CombinedOutput _ w) as [[out [e|]] w']; reflexivity.
Qed.

Lemma cleanupChains_dispatched (cfg : FirewallConfiguration) (chains : list string)
    (w : World) :
  SimulateOnly cfg = false ->
  map fst (dispatched (cleanupChains cfg chains w))
  = map (startedCommand cfg)
      (flat_map (fun chain => [makeFlushChain chain; makeDeleteChain chain]) chains).
Proof.
  intros H. revert w; induction chains as [|chain chains IH]; intros w; [reflexivity|].
  cbn [cleanupChains flat_map app map]. unfold bind.
  rewrite !executeCommand_started by assumption.
  cbn [dispatched value world app map fst]. now rewrite IH.
Qed.

Lemma addingRules_shape (cfg : FirewallConfiguration) (commands : list Cmd) (w : World) :
  SimulateOnly cfg = false ->
  (value (addingRules cfg commands w) = None
   /\ dispatched (addingRules cfg commands w) = map (succeeded cfg) commands)
  \/ (exists pre c post e,
        commands = pre ++ c :: post
        /\ value (addingRules cfg commands w) = Some e
        /\ dispatched (addingRules cfg commands w)
           = map (succeeded cfg) pre ++ [(startedCommand cfg c, Some e)]).
Proof.
  intros H. revert w; induction commands as [|cmd commands IH]; intros w.
  - left. split; reflexivity.
  - cbn [addingRules]. unfold bind.
    rewrite !executeCommand_started by assumption. cbv zeta. cbn [value dispatched world].
    destruct (snd (fst (CombinedOutput (startedCommand cfg cmd) w))) as [e|] eqn:E.
    + right. exists [], cmd, commands, e. repeat split.
    + destruct (IH (snd (CombinedOutput (startedCommand cfg cmd) w)))
        as [[Hv Hd]|(pre & c & post & e & -> & Hv & Hd)].
      * left. rewrite Hv, Hd. split; reflexivity.
      * right. exists (cmd :: pre), c, post, e. rewrite Hv, Hd. repeat split.
Qed.

Lemma ConfigureFirewall_simulated (cfg : FirewallConfiguration) (w : World) :
  SimulateOnly cfg = true ->
  ConfigureFirewall cfg w = {| value := None; dispatched := []; world := w |}.
Proof.
  intros H.
  assert (Hadd : forall commands w',
             addingRules cfg commands w' = {| value := None; dispatched := []; world := w' |}).
  { induction commands as [|c cs IH]; intros w'; [reflexivity|].
    cbn [addingRules]. unfold bind. rewrite executeCommand_simulated by assumption.
    cbn [value world dispatched]. now rewrite IH. }
  unfold ConfigureFirewall, bind. cbn [cleanupChains]. unfold bind.
  repeat (rewrite executeCommand_simulated by assumption; cbn [value world dispatched]).
  cbv zeta. rewrite Hadd. cbn [value world dispatched].
  repeat (rewrite executeCommand_simulated by assumption; cbn [value world dispatched]).
  reflexivity.
Qed.

Lemma bind_assoc (A B C : Type) (m : Driver A) (f : A -> Driver B) (g : B -> Driver C)
    (w : World) :
  bind (bind m f) g w = bind m (fun a => bind (f a) g) w.
Proof. unfold bind. cbn [value dispatched world]. now rewrite app_assoc. Qed.

Lemma bind_ret (A B : Type) (a : A) (k : A -> Driver B) (w : World) :
  bind (ret a) k w = k a w.
Proof. unfold bind, ret. cbn [value dispatched world app]. now destruct (k a w). Qed.

Lemma bind_executeCommand (B : Type) (cfg : FirewallConfiguration) (cmd : Cmd)
    (k : option error -> Driver B) (w : World) :
  SimulateOnly cfg = false ->
  exists r w',
    bind (executeCommand cfg cmd) k w
    = {| value := value (k r w');
         dispatched := (startedCommand cfg cmd, r) :: dispatched (k r w');
         world := world (k r w') |}.
Proof.
  intros H. unfold bind. rewrite executeCommand_started by assumption.
  cbv zeta. cbn [value dispatched world].
  now exists (snd (fst (CombinedOutput (startedCommand cfg cmd) w))),
             (snd (CombinedOutput (startedCommand cfg cmd) w)).
Qed.

Ltac step_executeCommand H :=
  match goal with
  | |- context [bind (executeCommand ?cfg ?c) ?k ?w] =>
      let r := fresh "r" in
      let w' := fresh "w" in
      let E := fresh "E" in
      destruct (bind_executeCommand cfg c k w H) as (r & w' & E);
      rewrite !E; clear E; cbn [value dispatched world]; cbv beta
  end.

Lemma ConfigureFirewall_shape (cfg : FirewallConfiguration) (w : World) :
  SimulateOnly cfg = false ->
  RunShape cfg (dispatched (ConfigureFirewall cfg w)) (value (ConfigureFirewall cfg w)).
Proof.
  intros H. unfold ConfigureFirewall.
  step_executeCommand H.
  destruct r as [e|]; cbv iota; [apply RunNoDump|].
  cbn [cleanupChains].
  do 2 step_executeCommand H.
  rewrite !bind_assoc. step_executeCommand H.
  rewrite !bind_assoc. step_executeCommand H.
  rewrite !bind_assoc. step_executeCommand H.
  rewrite !bind_assoc. step_executeCommand H.
  rewrite !bind_ret. cbv zeta.
  match goal with
  | |- RunShape _ (?d0 :: ?c1 :: ?c2 :: ?c3 :: ?c4 :: ?c5 :: ?c6 :: ?rest) _ =>
      change (d0 :: c1 :: c2 :: c3 :: c4 :: c5 :: c6 :: rest)
        with (d0 :: [c1; c2; c3; c4; c5; c6] ++ rest)
  end.
  unfold bind.
  match goal with
  | |- context [addingRules cfg (composedCommands cfg) ?w1] =>
      destruct (addingRules_shape cfg (composedCommands cfg) w1 H)
        as [[Hv Hd]|(pre & c & post & e & Hc & Hv & Hd)]; rewrite !Hv, !Hd
  end.
  - rewrite !executeCommand_started by assumption.
    cbv zeta. cbn [value dispatched world ret]. rewrite app_nil_r.
    apply RunCompleted. reflexivity.
  - cbn [value dispatched world ret]. rewrite app_nil_r.
    eapply RunAborted; [reflexivity | eassumption].
Qed.

Lemma RunShape_commands (cfg : FirewallConfiguration) (trace : list Dispatch)
    (v : option error) (c : Cmd) (r : option error) :
  RunShape cfg trace v ->
  In (c, r) trace ->
  exists c0,
    c = startedCommand cfg c0
    /\ In c0 (makeShowAllRules :: cleanupCommands ++ composedCommands cfg).
Proof.
  assert (Hcl : forall cleanup,
             map fst cleanup = map (startedCommand cfg) cleanupCommands ->
             In (c, r) cleanup ->
             exists c0, c = startedCommand cfg c0 /\ In c0 cleanupCommands).
  { intros cleanup Hm Hin. apply (in_map fst) in Hin. rewrite Hm in Hin.
    apply in_map_iff in Hin as (c0 & E & Hin). exists c0. now split. }
  assert (Hok : forall l,
             In (c, r) (map (succeeded cfg) l) ->
             exists c0, c = startedCommand cfg c0 /\ In c0 l).
  { intros l Hin. apply in_map_iff in Hin as (c0 & E & Hin).
    injection E as E _. exists c0. now split. }
  intros [e|cleanup pre c1 post e Hm Hc|cleanup d Hm] Hin.
  - destruct Hin as [E|[]]. injection E as <- _. exists makeShowAllRules. split; [reflexivity|now left].
  - destruct Hin as [E|Hin].
    { injection E as <- _. exists makeShowAllRules. split; [reflexivity|now left]. }
    rewrite !in_app_iff in Hin. destruct Hin as [Hin|[Hin|[E|[]]]].
    + destruct (Hcl _ Hm Hin) as (c0 & -> & H0). exists c0. split; [reflexivity|].
      right. apply in_or_app. now left.
    + destruct (Hok _ Hin) as (c0 & -> & H0). exists c0. split; [reflexivity|].
      right. apply in_or_app. right. rewrite Hc. apply in_or_app. now left.
    + injection E as <- _. exists c1. split; [reflexivity|].
      right. apply in_or_app. right. rewrite Hc. apply in_or_app. right. now left.
  - destruct Hin as [E|Hin].
    { injection E as <- _. exists makeShowAllRules. split; [reflexivity|now left]. }
    rewrite !in_app_iff in Hin. destruct Hin as [Hin|[Hin|[E|[]]]].
    + destruct (Hcl _ Hm Hin) as (c0 & -> & H0). exists c0. split; [reflexivity|].
      right. apply in_or_app. now left.
    + destruct (Hok _ Hin) as (c0 & -> & H0). exists c0. split; [reflexivity|].
      right. apply in_or_app. now right.
    + injection E as <- _. exists makeShowAllRules. split; [reflexivity|now left].
Qed.

(** Every command of the installation sequence is one of the named rules. *)
Lemma composedCommands_cases (cfg : FirewallConfiguration) (c : Cmd) :
  In c (composedCommands cfg) ->
  c = createRedirectChain
  \/ (exists port, c = portExemptionRule redirectChainName port)
  \/ c = inboundRedirectAllRule cfg
  \/ (exists port, c = inboundRedirectPortRule cfg port)
  \/ c = preroutingJumpRule
  \/ c = createOutputChain
  \/ c = hairpinRule cfg
  \/ c = identityExemptionRule cfg
  \/ c = loopbackExemptionRule
  \/ (exists port, c = portExemptionRule outputChainName port)
  \/ c = catchAllRedirectRule cfg
  \/ c = outputJumpRule.
Proof.
  rewrite composedCommands_eq, inboundTransaction_eq, outboundTransaction_eq.
  rewrite in_app_iff. cbn [In]. rewrite !in_app_iff. cbn [In].
  unfold inboundRedirectRules, identityRules.
  intros [[<-|[H|[H|[<-|[]]]]]|[<-|[[H|[<-|H]]|[<-|[<-|[]]]]]]; auto 12.
  - apply in_map_iff in H as (p & <- & _). eauto 12.
  - destruct (Mode cfg =? RedirectAllMode)%string.
    + destruct H as [<-|[]]. auto 12.
    + destruct (Mode cfg =? RedirectListedMode)%string; [|destruct H].
      apply in_map_iff in H as (p & <- & _). eauto 12.
  - destruct (0 <? ProxyUID cfg); [|destruct H].
    destruct H as [<-|[<-|[]]]; auto 12.
  - apply in_map_iff in H as (p & <- & _). eauto 14.
Qed.

Lemma constructed_Path (cfg : FirewallConfiguration) (c : Cmd) :
  In c (makeShowAllRules :: cleanupCommands ++ composedCommands cfg) ->
  Path c = "iptables" \/ Path c = "iptables-save".
Proof.
  cbn [In]. rewrite in_app_iff.
  intros [<-|[H|H]].
  - now right.
  - left. cbn in H. repeat (destruct H as [<-|H]; [reflexivity|]). destruct H.
  - left. apply composedCommands_cases in H.
    repeat (destruct H as [H|H]); try destruct H as (p & H); subst c; reflexivity.
Qed.

Lemma constructed_comment (cfg : FirewallConfiguration) (c : Cmd) :
  In c (makeShowAllRules :: cleanupCommands ++ composedCommands cfg) ->
  (commentOf c = None
   /\ (c = makeShowAllRules
       \/ exists chain, c = makeFlushChain chain \/ c = makeDeleteChain chain))
  \/ (exists label, commentOf c = Some (formatComment label)).
Proof.
  cbn [In]. rewrite in_app_iff.
  intros [<-|[H|H]].
  - left. split; [reflexivity|now left].
  - cbn in H. destruct H as [<-|[<-|[<-|[<-|[<-|[<-|[]]]]]]];
      try (right; eexists; read_rule; reflexivity);
      left; (split; [reflexivity|right; eexists; eauto]).
  - right. apply composedCommands_cases in H.
    repeat (destruct H as [H|H]); try destruct H as (p & H); subst c;
      eexists; read_rule; reflexivity.
Qed.

Lemma Recorded_app (t1 t2 : list Dispatch) :
  Recorded t1 -> Recorded t2 -> Recorded (t1 ++ t2).
Proof.
  intros H1 H2 c r Hin. apply in_app_or in Hin as [Hin|Hin]; eauto.
Qed.

Lemma executeCommand_Recorded (cfg : FirewallConfiguration) (cmd : Cmd) (w : World) :
  Recorded (dispatched (executeCommand cfg cmd w)).
Proof.
  destruct (SimulateOnly cfg) eqn:H.
  - rewrite executeCommand_simulated by assumption. intros c r [].
  - rewrite executeCommand_started by assumption. cbv zeta. cbn [dispatched].
    intros c r [E|[]]. injection E as <- <-. now exists w.
Qed.

Lemma bind_Recorded (A B : Type) (m : Driver A) (k : A -> Driver B) (w : World) :
  Recorded (dispatched (m w)) ->
  (forall a w', Recorded (dispatched (k a w'))) ->
  Recorded (dispatched (bind m k w)).
Proof.
  intros Hm Hk. unfold bind. cbn [dispatched]. apply Recorded_app; auto.
Qed.

Lemma ConfigureFirewall_Recorded (cfg : FirewallConfiguration) (w : World) :
  Recorded (dispatched (ConfigureFirewall cfg w)).
Proof.
  assert (Hret : forall (A : Type) (a : A) w', Recorded (dispatched (ret a w')))
    by (intros A a w' c r []).
  assert (Hclean : forall chains w', Recorded (dispatched (cleanupChains cfg chains w'))).
  { induction chains as [|chain chains IH]; intros w'; [apply Hret|].
    cbn [cleanupChains].
    repeat (apply bind_Recorded; [apply executeCommand_Recorded|intros _ ?]).
    apply IH. }
  assert (Hadd : forall commands w', Recorded (dispatched (addingRules cfg commands w'))).
  { induction commands as [|c cs IH]; intros w'; [apply Hret|].
    cbn [addingRules].
    apply bind_Recorded; [apply executeCommand_Recorded|intros [e|] ?];
      [apply Hret|apply IH]. }
  unfold ConfigureFirewall.
  apply bind_Recorded; [apply executeCommand_Recorded|intros [e|] ?]; [apply Hret|].
  repeat (apply bind_Recorded; [apply executeCommand_Recorded|intros _ ?]).
  apply bind_Recorded; [apply Hclean|intros _ ?]. cbv zeta.
  apply bind_Recorded; [apply Hadd|intros [e|] ?]; [apply Hret|].
  apply bind_Recorded; [apply executeCommand_Recorded|intros _ ?]. apply Hret.
Qed.

Lemma ConfigureFirewall_error (cfg : FirewallConfiguration) (w : World) (e : error) :
  value (ConfigureFirewall cfg w) = Some e ->
  exists c, In (c, Some e) (dispatched (ConfigureFirewall cfg w)).
Proof.
  destruct (SimulateOnly cfg) eqn:H.
  - rewrite ConfigureFirewall_simulated by assumption. discriminate.
  - pose proof (ConfigureFirewall_shape cfg w H) as S.
    destruct S as [e'|cleanup pre c1 post e' Hm Hc|cleanup d Hm]; intros E.
    + injection E as ->. eexists. now left.
    + injection E as ->. eexists. right. rewrite !in_app_iff. right; right. now left.
    + discriminate.
Qed.

(** C5.  Once the run is past the first dump, the six cleanup commands
    are all started whatever errors they give, and the run goes on to
    the installation; after that either an installation command fails,
    when the commands before it had worked, nothing is started after it
    and its error is what [ConfigureFirewall] returns, or every command
    of the installation works and [ConfigureFirewall] returns no error. *)
Theorem C5_cleanup_best_effort_installation_fail_fast (cfg : FirewallConfiguration)
    (w : World) (rest : list Dispatch) :
  dispatched (ConfigureFirewall cfg w) = succeeded cfg makeShowAllRules :: rest ->
  exists cleanup installation,
    rest = cleanup ++ installation
    /\ map fst cleanup = map (startedCommand cfg) cleanupCommands
    /\ ((exists pre c post e,
           composedCommands cfg = pre ++ c :: post
           /\ installation = map (succeeded cfg) pre ++ [(startedCommand cfg c, Some e)]
           /\ value (ConfigureFirewall cfg w) = Some e)
        \/ (exists d,
             installation
             = map (succeeded cfg) (composedCommands cfg) ++
               [(startedCommand cfg makeShowAllRules, d)]
             /\ value (ConfigureFirewall cfg w) = None)).
Proof.
  intros Hd.
  destruct (SimulateOnly cfg) eqn:H.
  { rewrite ConfigureFirewall_simulated in Hd by assumption. discriminate. }
  pose proof (ConfigureFirewall_shape cfg w H) as S. rewrite Hd in S.
  remember (succeeded cfg makeShowAllRules :: rest) as trace eqn:Et.
  destruct S as [e|cleanup pre c post e Hm Hc|cleanup d Hm].
  - discriminate.
  - injection Et as <-.
    exists cleanup, (map (succeeded cfg) pre ++ [(startedCommand cfg c, Some e)]).
    split; [reflexivity|]. split; [assumption|].
    left. now exists pre, c, post, e.
  - injection Et as <-.
    exists cleanup,
      (map (succeeded cfg) (composedCommands cfg) ++ [(startedCommand cfg makeShowAllRules, d)]).
    split; [reflexivity|]. split; [assumption|].
    right. now exists d.
Qed.

(** C6, as the code has it.  When the run is not simulated, the first
    process started is the full-table dump; if it fails nothing else is
    started and its error is returned; [ConfigureFirewall] returns no
    error exactly when the six cleanup commands and every installation
    command have been started and the dump has been started once more
    after them, whatever that last dump gives. *)
Theorem C6_dump_before_and_after (cfg : FirewallConfiguration) (w : World) :
  SimulateOnly cfg = false ->
  (exists d rest,
     dispatched (ConfigureFirewall cfg w) = (startedCommand cfg makeShowAllRules, d) :: rest
     /\ (forall e, d = Some e -> value (ConfigureFirewall cfg w) = Some e /\ rest = []))
  /\ (value (ConfigureFirewall cfg w) = None <->
      exists body d,
        dispatched (ConfigureFirewall cfg w)
        = succeeded cfg makeShowAllRules ::
          body ++ [(startedCommand cfg makeShowAllRules, d)]
        /\ map fst body
           = map (startedCommand cfg) (cleanupCommands ++ composedCommands cfg)).
Proof.
  intros H. pose proof (ConfigureFirewall_shape cfg w H) as S.
  destruct S as [e|cleanup pre c post e Hm Hc|cleanup d Hm].
  - split.
    + exists (Some e), []. split; [reflexivity|]. intros e' E. injection E as ->. now split.
    + split; [discriminate|]. intros (body & d & E & _).
      injection E as E _. discriminate.
  - split.
    + eexists None, _. split; [reflexivity|]. discriminate.
    + split; [discriminate|]. intros (body & d & E & Hb). exfalso.
      injection E as E.
      apply (f_equal (@List.length _)) in E, Hb, Hm.
      rewrite Hc in Hb.
      rewrite !length_map in Hm, Hb. rewrite !length_app in E, Hb.
      rewrite length_map, (length_app body) in E.
      cbn [List.length cleanupCommands] in E, Hb, Hm. unfold Dispatch in *. lia.
  - split.
    + eexists None, _. split; [reflexivity|]. discriminate.
    + split; [|reflexivity]. intros _.
      exists (cleanup ++ map (succeeded cfg) (composedCommands cfg)), d. split.
      * now rewrite <- app_assoc.
      * rewrite !map_app, map_map. f_equal. exact Hm.
Qed.

(** C7.  With [SimulateOnly] set the installation sequence is still
    composed and is not empty, [executeCommand] returns no error for
    every command without starting a process, and [ConfigureFirewall]
    returns no error, has started no process and leaves the world as it
    found it. *)
Theorem C7_simulate_only_dispatches_nothing (cfg : FirewallConfiguration) :
  SimulateOnly cfg = true ->
  composedCommands cfg <> []
  /\ (forall cmd w,
        executeCommand cfg cmd w = {| value := None; dispatched := []; world := w |})
  /\ (forall w,
        ConfigureFirewall cfg w = {| value := None; dispatched := []; world := w |}).
Proof.
  intros H. split; [|split].
  - rewrite composedCommands_eq, inboundTransaction_eq. discriminate.
  - intros cmd w. now apply executeCommand_simulated.
  - intros w. now apply ConfigureFirewall_simulated.
Qed.

(** C9, what the code does.  With [NetNs] set, every process that
    [ConfigureFirewall] starts has the three namespace arguments in front
    of its argument vector, but the program started is still the one the
    command was built for, [iptables] or [iptables-save]: only [Args] is
    rewritten, [Path] is not. *)
Theorem C9_namespace_arguments_without_path (cfg : FirewallConfiguration) :
  SimulateOnly cfg = false ->
  NetNs cfg <> "" ->
  (forall cmd,
     Path (startedCommand cfg cmd) = Path cmd
     /\ Args (startedCommand cfg cmd)
        = ["nsenter"; "--net"; NetNs cfg] ++ Args cmd ++
          (if UseWaitFlag cfg then ["-w"] else []))
  /\ (forall cmd w, map fst (dispatched (executeCommand cfg cmd w)) = [startedCommand cfg cmd])
  /\ (forall w c r,
        In (c, r) (dispatched (ConfigureFirewall cfg w)) ->
        (Path c = "iptables" \/ Path c = "iptables-save")
        /\ Path c <> "nsenter"
        /\ exists tail, Args c = "nsenter" :: "--net" :: NetNs cfg :: tail).
Proof.
  intros H Hns.
  assert (Hlen : (0 <? String.length (NetNs cfg))%nat = true).
  { destruct (NetNs cfg); [congruence|reflexivity]. }
  assert (Hstart : forall cmd,
             Path (startedCommand cfg cmd) = Path cmd
             /\ Args (startedCommand cfg cmd)
                = ["nsenter"; "--net"; NetNs cfg] ++ Args cmd ++
                  (if UseWaitFlag cfg then ["-w"] else [])).
  { intros cmd. unfold startedCommand. rewrite Hlen.
    destruct (UseWaitFlag cfg); cbn [set_Args Path Args append];
      split; try reflexivity. now rewrite app_nil_r. }
  split; [exact Hstart|]. split.
  - intros cmd w. now rewrite executeCommand_started by assumption.
  - intros w c r Hin.
    destruct (@RunShape_commands cfg _ _ c r (ConfigureFirewall_shape cfg w H) Hin)
      as (c0 & -> & H0).
    destruct (Hstart c0) as [HP HA]. rewrite HP, HA.
    pose proof (@constructed_Path cfg c0 H0) as Hp.
    split; [assumption|]. split.
    + destruct Hp as [-> | ->]; discriminate.
    + eexists. reflexivity.
Qed.

(** C10.  With a mode that is neither of the two known ones, the inbound
    transaction is the chain creation, the port exemptions and the jump
    from PREROUTING, with no redirect rule; the mode itself makes
    [ConfigureFirewall] report nothing: an error it returns is the error
    of a process it started, it returns none when simulating, and none
    when every process works. *)
Theorem C10_unknown_mode_is_silent (cfg : FirewallConfiguration) :
  Mode cfg <> RedirectAllMode ->
  Mode cfg <> RedirectListedMode ->
  inboundTransaction cfg
  = createRedirectChain ::
    map (portExemptionRule redirectChainName) (InboundPortsToIgnore cfg) ++
    [preroutingJumpRule]
  /\ filter isRedirectRule (inboundTransaction cfg) = []
  /\ (forall w e,
        value (ConfigureFirewall cfg w) = Some e ->
        exists c, In (c, Some e) (dispatched (ConfigureFirewall cfg w)))
  /\ (SimulateOnly cfg = true -> forall w, value (ConfigureFirewall cfg w) = None)
  /\ ((forall c w, snd (fst (CombinedOutput c w)) = None) ->
      forall w, value (ConfigureFirewall cfg w) = None).
Proof.
  intros Hall Hlisted.
  assert (R : inboundRedirectRules cfg = []).
  { unfold inboundRedirectRules.
    apply String.eqb_neq in Hall, Hlisted. now rewrite Hall, Hlisted. }
  rewrite inboundTransaction_redirects, inboundTransaction_eq, R.
  split; [reflexivity|]. split; [reflexivity|]. split; [|split].
  - intros w e. apply ConfigureFirewall_error.
  - intros H w. now rewrite ConfigureFirewall_simulated.
  - intros Hok w.
    destruct (value (ConfigureFirewall cfg w)) as [e|] eqn:E; [exfalso|reflexivity].
    apply ConfigureFirewall_error in E as (c & Hin).
    apply ConfigureFirewall_Recorded in Hin as (w' & Hw').
    rewrite Hok in Hw'. discriminate.
Qed.

(** * More of the composer and of the driver *)

(** ** Further vocabulary *)

(** The action of a command ([-N], [-A], [-D], [-F], [-X]): the fourth
    argument of the vector. *)
Definition actionOf (cmd : Cmd) : string := nth 3 (Args cmd) "".

Definition isCreateChain (cmd : Cmd) : bool := (actionOf cmd =? "-N")%string.

(** A command refers to a chain when it works on it or jumps into it. *)
Definition refersTo (chain : string) (cmd : Cmd) : bool :=
  (chainOf cmd =? chain)%string
  || match jumpTarget cmd with
     | Some t => (t =? chain)%string
     | None => false
     end.

(** The rule uses the owner match. *)
Definition usesOwnerMatch (cmd : Cmd) : bool :=
  match optionValue "--uid-owner" (Args cmd) with
  | Some _ => true
  | None => false
  end.

(** Everything [ConfigureFirewall] hands to [executeCommand] when nothing
    fails, in the order of the source. *)
Definition plan (cfg : FirewallConfiguration) : list Cmd :=
  makeShowAllRules :: cleanupCommands ++ composedCommands cfg ++ [makeShowAllRules].

(** ** The composer only appends *)

Lemma addRulesForInboundPortRedirect_app (cfg : FirewallConfiguration)
    (chainName : string) (commands : list Cmd) :
  addRulesForInboundPortRedirect cfg chainName commands
  = commands ++ addRulesForInboundPortRedirect cfg chainName [].
Proof.
  unfold addRulesForInboundPortRedirect.
  destruct (Mode cfg =? RedirectAllMode)%string; [reflexivity|].
  destruct (Mode cfg =? RedirectListedMode)%string.
  - now rewrite (redirect_listed_loop cfg chainName _ commands),
      (redirect_listed_loop cfg chainName _ []).
  - now rewrite app_nil_r.
Qed.

(** X1.  Each function of the composer keeps the slice it is given as
    the front of its result, and what it adds behind does not depend on
    that slice. *)
Theorem composer_only_appends (cfg : FirewallConfiguration) (commands : list Cmd) :
  addIncomingTrafficRules commands cfg = commands ++ addIncomingTrafficRules [] cfg
  /\ addOutgoingTrafficRules commands cfg = commands ++ addOutgoingTrafficRules [] cfg
  /\ (forall chainName,
        addRulesForInboundPortRedirect cfg chainName commands
        = commands ++ addRulesForInboundPortRedirect cfg chainName [])
  /\ (forall ports chainName,
        addRulesForIgnoredPorts ports chainName commands
        = commands ++ addRulesForIgnoredPorts ports chainName []).
Proof.
  split; [|split; [|split]].
  - now rewrite (addIncomingTrafficRules_eq commands), (addIncomingTrafficRules_eq []).
  - now rewrite (addOutgoingTrafficRules_eq commands), (addOutgoingTrafficRules_eq []).
  - intros chainName. apply addRulesForInboundPortRedirect_app.
  - intros ports chainName.
    now rewrite (addRulesForIgnoredPorts_eq ports chainName commands),
      (addRulesForIgnoredPorts_eq ports chainName []).
Qed.

(** X2.  The number of installation commands: six fixed ones, one per
    ignored port of either direction (repeated ports counted as often as
    they are listed), two when [ProxyUID] is positive, and the redirect
    rules of the mode. *)
Theorem composedCommands_length (cfg : FirewallConfiguration) :
  List.length (composedCommands cfg)
  = (6
     + List.length (InboundPortsToIgnore cfg)
     + List.length (OutboundPortsToIgnore cfg)
     + (if (0 <? ProxyUID cfg)%Z then 2 else 0)
     + (if (Mode cfg =? RedirectAllMode)%string then 1
        else if (Mode cfg =? RedirectListedMode)%string
             then List.length (PortsToRedirectInbound cfg)
             else 0))%nat.
Proof.
  rewrite composedCommands_eq, inboundTransaction_eq, outboundTransaction_eq.
  unfold inboundRedirectRules, identityRules.
  cbn [List.length]. rewrite !length_app. cbn [List.length].
  rewrite !length_app, !length_map. cbn [List.length]. rewrite length_map.
  destruct (0 <? ProxyUID cfg); destruct (Mode cfg =? RedirectAllMode)%string;
    try destruct (Mode cfg =? RedirectListedMode)%string;
    rewrite ?length_map; cbn [List.length]; lia.
Qed.

(** ** Chains exist before they are used *)

Ltac read_more :=
  unfold refersTo, usesOwnerMatch, isCreateChain, actionOf, onInboundSide; read_rule.

Lemma inboundTransaction_not_output (cfg : FirewallConfiguration) (c : Cmd) :
  In c (inboundTransaction cfg) -> refersTo outputChainName c = false.
Proof.
  rewrite inboundTransaction_eq. cbn [In]. rewrite !in_app_iff. cbn [In].
  unfold inboundRedirectRules.
  intros [<-|[H|[H|[<-|[]]]]]; try (read_more; reflexivity).
  { apply in_map_iff in H as (p & <- & _). read_more; reflexivity. }
  destruct (Mode cfg =? RedirectAllMode)%string.
  - destruct H as [<-|[]]. read_more; reflexivity.
  - destruct (Mode cfg =? RedirectListedMode)%string; [|destruct H].
    apply in_map_iff in H as (p & <- & _). read_more; reflexivity.
Qed.

(** X3.  No installation command works on one of the two custom chains,
    or jumps into it, before the command that creates the chain: the
    creation of [PROXY_INIT_REDIRECT] is the first command, and that of
    [PROXY_INIT_OUTPUT] comes right after the inbound transaction, which
    does not refer to that chain. *)
Theorem chain_created_before_it_is_used (cfg : FirewallConfiguration) (chain : string)
    (i : nat) (c : Cmd) :
  chain = outputChainName \/ chain = redirectChainName ->
  nth_error (composedCommands cfg) i = Some c ->
  refersTo chain c = true ->
  exists k,
    (k <= i)%nat
    /\ nth_error (composedCommands cfg) k
       = Some (makeCreateNewChain chain "redirect-common-chain").
Proof.
  intros [-> | ->] Hi Hc.
  - exists (List.length (inboundTransaction cfg)).
    rewrite composedCommands_eq in *. split.
    + destruct (Nat.lt_ge_cases i (List.length (inboundTransaction cfg))) as [Hlt|]; [|assumption].
      rewrite nth_error_app1 in Hi by assumption.
      apply nth_error_In, inboundTransaction_not_output in Hi. congruence.
    + rewrite nth_error_app2, Nat.sub_diag by lia.
      now rewrite outboundTransaction_eq.
  - exists 0%nat. split; [lia|].
    now rewrite composedCommands_eq, inboundTransaction_eq.
Qed.

(** X4.  A built-in chain is hooked to a custom chain only when that
    chain is complete: every command that works on [PROXY_INIT_REDIRECT]
    stands before the jump from PREROUTING, which ends the inbound
    transaction, and every command that works on [PROXY_INIT_OUTPUT]
    stands before the jump from OUTPUT, which is the last command. *)
Theorem hook_installed_after_its_chain (cfg : FirewallConfiguration) :
  let inbound := List.length (inboundTransaction cfg) in
  let all := List.length (composedCommands cfg) in
  nth_error (composedCommands cfg) (inbound - 1) = Some preroutingJumpRule
  /\ nth_error (composedCommands cfg) (all - 1) = Some outputJumpRule
  /\ (forall i c,
        nth_error (composedCommands cfg) i = Some c ->
        chainOf c = redirectChainName -> (i < inbound - 1)%nat)
  /\ (forall i c,
        nth_error (composedCommands cfg) i = Some c ->
        chainOf c = outputChainName -> (i < all - 1)%nat).
Proof.
  intros inbound all.
  assert (Ein : exists front, inboundTransaction cfg = front ++ [preroutingJumpRule]).
  { rewrite inboundTransaction_eq.
    exists (createRedirectChain ::
            map (portExemptionRule redirectChainName) (InboundPortsToIgnore cfg) ++
            inboundRedirectRules cfg).
    cbn [app]. now rewrite <- app_assoc. }
  assert (Eout : exists front, outboundTransaction cfg = front ++ [outputJumpRule]).
  { rewrite outboundTransaction_eq.
    exists (createOutputChain ::
            (identityRules cfg ++
             loopbackExemptionRule ::
             map (portExemptionRule outputChainName) (OutboundPortsToIgnore cfg)) ++
            [catchAllRedirectRule cfg]).
    cbn [app]. now rewrite <- !app_assoc. }
  destruct Ein as (fin & Ein), Eout as (fout & Eout).
  assert (Hin : inbound = S (List.length fin)).
  { unfold inbound. rewrite Ein, length_app. cbn. lia. }
  assert (Hall : all = S (inbound + List.length fout)).
  { unfold all. rewrite composedCommands_eq, length_app. fold inbound.
    rewrite Eout, length_app. cbn. lia. }
  assert (Hpre : chainOf preroutingJumpRule <> redirectChainName)
    by (read_more; discriminate).
  assert (Hojump : chainOf outputJumpRule <> outputChainName)
    by (read_more; discriminate).
  assert (Hside : forall c, onInboundSide c = true -> chainOf c <> outputChainName).
  { intros c Hc E. unfold onInboundSide in Hc. rewrite E in Hc. discriminate. }
  assert (Hside' : forall c, onInboundSide c = false -> chainOf c <> redirectChainName).
  { intros c Hc E. unfold onInboundSide in Hc. rewrite E in Hc. discriminate. }
  rewrite composedCommands_eq. repeat split.
  - rewrite nth_error_app1 by lia. rewrite Ein, nth_error_app2 by lia.
    replace (inbound - 1 - List.length fin)%nat with 0%nat by lia. reflexivity.
  - rewrite nth_error_app2 by (fold inbound; lia). fold inbound.
    rewrite Eout, nth_error_app2 by lia.
    replace (all - 1 - inbound - List.length fout)%nat with 0%nat by lia. reflexivity.
  - intros i c Hi Hc.
    destruct (Nat.lt_ge_cases i (inbound - 1)) as [|Hge]; [assumption|exfalso].
    destruct (Nat.lt_ge_cases i inbound) as [Hlt|Hge'].
    + rewrite nth_error_app1 in Hi by assumption.
      rewrite Ein, nth_error_app2 in Hi by lia.
      replace (i - List.length fin)%nat with 0%nat in Hi by lia.
      injection Hi as <-. contradiction.
    + rewrite nth_error_app2 in Hi by assumption.
      apply nth_error_In, outboundTransaction_side, Hside' in Hi. contradiction.
  - intros i c Hi Hc.
    assert (Hlen : (i < List.length (inboundTransaction cfg ++ outboundTransaction cfg))%nat)
      by (apply nth_error_Some; rewrite Hi; discriminate).
    rewrite length_app in Hlen. fold inbound in Hlen.
    destruct (Nat.lt_ge_cases i (all - 1)) as [|Hge]; [assumption|exfalso].
    rewrite nth_error_app2 in Hi by lia. fold inbound in Hi.
    rewrite Eout, nth_error_app2 in Hi by lia.
    rewrite Eout, length_app in Hlen. cbn [List.length] in Hlen.
    replace (i - inbound - List.length fout)%nat with 0%nat in Hi by lia.
    injection Hi as <-. contradiction.
Qed.

(** ** The inbound exemptions *)

Lemma filter_none (A : Type) (p : A -> bool) (l : list A) :
  (forall x, In x l -> p x = false) -> filter p l = [].
Proof.
  induction l as [|a l IH]; intros H; cbn; [reflexivity|].
  rewrite (H a) by now left. apply IH. intros x Hx. apply H. now right.
Qed.

Lemma order_in_app (p q : Cmd -> bool) (front back : list Cmd) :
  (forall x, In x back -> p x = false) ->
  (forall x, In x front -> q x = false) ->
  forall i j c d,
    nth_error (front ++ back) i = Some c -> p c = true ->
    nth_error (front ++ back) j = Some d -> q d = true ->
    (i < j)%nat.
Proof.
  intros Hp Hq i j c d Hi Hc Hj Hd.
  assert (i < List.length front)%nat.
  { destruct (Nat.lt_ge_cases i (List.length front)) as [|Hge]; [assumption|exfalso].
    rewrite nth_error_app2 in Hi by assumption.
    apply nth_error_In, Hp in Hi. congruence. }
  assert (List.length front <= j)%nat.
  { destruct (Nat.lt_ge_cases j (List.length front)) as [Hlt|]; [exfalso|assumption].
    rewrite nth_error_app1 in Hj by assumption.
    apply nth_error_In, Hq in Hj. congruence. }
  lia.
Qed.

Lemma inboundRedirectRules_read (cfg : FirewallConfiguration) (c : Cmd) :
  In c (inboundRedirectRules cfg) ->
  isRedirectRule c = true /\ isExemptionRule c = false.
Proof.
  unfold inboundRedirectRules.
  destruct (Mode cfg =? RedirectAllMode)%string.
  - intros [<-|[]]. split; read_rule; reflexivity.
  - destruct (Mode cfg =? RedirectListedMode)%string; [|intros []].
    intros H. apply in_map_iff in H as (p & <- & _).
    split; apply inboundRedirectPortRule_read.
Qed.

Lemma inboundTransaction_exemptions (cfg : FirewallConfiguration) :
  filter isExemptionRule (inboundTransaction cfg)
  = map (portExemptionRule redirectChainName) (InboundPortsToIgnore cfg).
Proof.
  rewrite inboundTransaction_eq. cbn [filter].
  replace (isExemptionRule createRedirectChain) with false by (read_rule; reflexivity).
  rewrite !filter_app. cbn [filter].
  replace (isExemptionRule preroutingJumpRule) with false by (read_rule; reflexivity).
  rewrite filter_map_keep by (intros a; apply portExemptionRule_read).
  rewrite (filter_none isExemptionRule (inboundRedirectRules cfg))
    by (intros x Hx; now apply inboundRedirectRules_read in Hx).
  now rewrite !app_nil_r.
Qed.

(** X5.  In every mode the exemption rules of the inbound transaction
    are one per entry of [InboundPortsToIgnore], in the list's order, each
    on that destination port, and each of them stands before every
    redirect rule of the transaction. *)
Theorem inbound_exemptions_before_redirects (cfg : FirewallConfiguration) :
  filter isExemptionRule (inboundTransaction cfg)
  = map (portExemptionRule redirectChainName) (InboundPortsToIgnore cfg)
  /\ map destinationPortOf (filter isExemptionRule (inboundTransaction cfg))
     = map (fun port => Some (Itoa port)) (InboundPortsToIgnore cfg)
  /\ (forall i j c d,
        nth_error (inboundTransaction cfg) i = Some c -> isExemptionRule c = true ->
        nth_error (inboundTransaction cfg) j = Some d -> isRedirectRule d = true ->
        (i < j)%nat).
Proof.
  pose proof (inboundTransaction_exemptions cfg) as F.
  split; [exact F|]. split.
  - rewrite F, map_map. apply map_ext. intros port. read_rule. reflexivity.
  - rewrite inboundTransaction_eq.
    change (createRedirectChain ::
            map (portExemptionRule redirectChainName) (InboundPortsToIgnore cfg) ++
            inboundRedirectRules cfg ++ [preroutingJumpRule])
      with ((createRedirectChain ::
             map (portExemptionRule redirectChainName) (InboundPortsToIgnore cfg)) ++
            (inboundRedirectRules cfg ++ [preroutingJumpRule])).
    apply order_in_app.
    + intros x Hx. apply in_app_or in Hx as [Hx|[<-|[]]].
      * now apply inboundRedirectRules_read in Hx.
      * read_rule. reflexivity.
    + intros x [<-|Hx].
      * read_rule. reflexivity.
      * apply in_map_iff in Hx as (port & <- & _). apply portExemptionRule_read.
Qed.

(** ** The owner match *)

(** X6.  The rules that use the owner match are the hairpin jump and the
    identity exemption, both on [ProxyUID], and they are built only when
    [ProxyUID] is positive: with zero (the superuser) or a negative value
    no installation command names a user, and the outbound transaction
    goes from the chain creation straight to the loopback exemption. *)
Theorem owner_match_only_for_positive_uid (cfg : FirewallConfiguration) :
  filter usesOwnerMatch (composedCommands cfg) = identityRules cfg
  /\ map (fun c => optionValue "--uid-owner" (Args c)) (identityRules cfg)
     = map (fun _ => Some (Itoa (ProxyUID cfg))) (identityRules cfg)
  /\ (ProxyUID cfg <= 0 ->
      filter usesOwnerMatch (composedCommands cfg) = []
      /\ outboundTransaction cfg
         = createOutputChain ::
           loopbackExemptionRule ::
           map (portExemptionRule outputChainName) (OutboundPortsToIgnore cfg) ++
           [catchAllRedirectRule cfg; outputJumpRule]).
Proof.
  assert (F : filter usesOwnerMatch (composedCommands cfg) = identityRules cfg).
  { rewrite composedCommands_eq, inboundTransaction_eq, outboundTransaction_eq.
    rewrite filter_app.
    rewrite (filter_none usesOwnerMatch).
    2:{ intros x [<-|Hx]; [read_more; reflexivity|].
        apply in_app_or in Hx as [Hx|Hx].
        - apply in_map_iff in Hx as (port & <- & _). read_more. reflexivity.
        - apply in_app_or in Hx as [Hx|[<-|[]]]; [|read_more; reflexivity].
          unfold inboundRedirectRules in Hx.
          destruct (Mode cfg =? RedirectAllMode)%string.
          + destruct Hx as [<-|[]]. read_more. reflexivity.
          + destruct (Mode cfg =? RedirectListedMode)%string; [|destruct Hx].
            apply in_map_iff in Hx as (port & <- & _). read_more. reflexivity. }
    cbn [app filter].
    replace (usesOwnerMatch createOutputChain) with false by (read_more; reflexivity).
    rewrite !filter_app. cbn [filter].
    replace (usesOwnerMatch loopbackExemptionRule) with false by (read_more; reflexivity).
    replace (usesOwnerMatch (catchAllRedirectRule cfg)) with false
      by (read_more; reflexivity).
    replace (usesOwnerMatch outputJumpRule) with false by (read_more; reflexivity).
    rewrite (filter_none usesOwnerMatch (map _ _)).
    2:{ intros x Hx. apply in_map_iff in Hx as (port & <- & _). read_more. reflexivity. }
    rewrite !app_nil_r. unfold identityRules.
    destruct (0 <? ProxyUID cfg); [|reflexivity].
    cbn [filter].
    replace (usesOwnerMatch (hairpinRule cfg)) with true by (read_more; reflexivity).
    replace (usesOwnerMatch (identityExemptionRule cfg)) with true
      by (read_more; reflexivity).
    reflexivity. }
  split; [exact F|]. split.
  - unfold identityRules. destruct (0 <? ProxyUID cfg); [|reflexivity].
    cbn [map]. read_rule. reflexivity.
  - intros Huid. rewrite F, outboundTransaction_eq. unfold identityRules.
    apply Z.ltb_ge in Huid. rewrite Huid. split; reflexivity.
Qed.

(** ** What is created and what is cleaned up *)

(** X7.  Whatever the configuration, the installation creates exactly
    two chains, [PROXY_INIT_REDIRECT] and then [PROXY_INIT_OUTPUT], and
    these are the two chains the cleanup phase flushes and then deletes,
    after it has asked to delete the jumps from OUTPUT and PREROUTING. *)
Theorem created_chains_are_the_cleaned_ones (cfg : FirewallConfiguration) :
  map chainOf (filter isCreateChain (composedCommands cfg))
  = [redirectChainName; outputChainName]
  /\ map (fun c => (actionOf c, chainOf c)) cleanupCommands
     = [("-D", IptablesOutputChainName); ("-D", IptablesPreroutingChainName);
        ("-F", outputChainName); ("-X", outputChainName);
        ("-F", redirectChainName); ("-X", redirectChainName)].
Proof.
  split; [|reflexivity].
  rewrite composedCommands_eq, inboundTransaction_eq, outboundTransaction_eq.
  rewrite filter_app. cbn [filter].
  replace (isCreateChain createRedirectChain) with true by reflexivity.
  replace (isCreateChain createOutputChain) with true by reflexivity.
  rewrite (filter_none isCreateChain (map _ _ ++ _)).
  2:{ intros x Hx. apply in_app_or in Hx as [Hx|Hx].
      - apply in_map_iff in Hx as (port & <- & _). reflexivity.
      - apply in_app_or in Hx as [Hx|[<-|[]]]; [|reflexivity].
        unfold inboundRedirectRules in Hx.
        destruct (Mode cfg =? RedirectAllMode)%string.
        + destruct Hx as [<-|[]]. reflexivity.
        + destruct (Mode cfg =? RedirectListedMode)%string; [|destruct Hx].
          apply in_map_iff in Hx as (port & <- & _). reflexivity. }
  rewrite (filter_none isCreateChain (_ ++ _)).
  2:{ intros x Hx. apply in_app_or in Hx as [Hx|[<-|[<-|[]]]]; try reflexivity.
      apply in_app_or in Hx as [Hx|[<-|Hx]]; try reflexivity.
      - unfold identityRules in Hx. destruct (0 <? ProxyUID cfg); [|destruct Hx].
        destruct Hx as [<-|[<-|[]]]; reflexivity.
      - apply in_map_iff in Hx as (port & <- & _). reflexivity. }
  reflexivity.
Qed.

(** ** The wait flag *)

(** X8.  With [UseWaitFlag] set, every process [ConfigureFirewall]
    starts has [-w] as its last argument, whether or not the command is
    wrapped for a namespace, and this includes the two [iptables-save]
    dumps. *)
Theorem wait_flag_on_every_started_process (cfg : FirewallConfiguration) (w : World) :
  SimulateOnly cfg = false ->
  UseWaitFlag cfg = true ->
  (forall c r,
     In (c, r) (dispatched (ConfigureFirewall cfg w)) -> last (Args c) "" = "-w")
  /\ exists r rest,
       dispatched (ConfigureFirewall cfg w) = (startedCommand cfg makeShowAllRules, r) :: rest
       /\ Path (startedCommand cfg makeShowAllRules) = "iptables-save"
       /\ last (Args (startedCommand cfg makeShowAllRules)) "" = "-w".
Proof.
  intros H Hw.
  assert (Hlast : forall c0, last (Args (startedCommand cfg c0)) "" = "-w").
  { intros c0. unfold startedCommand. rewrite Hw.
    destruct (0 <? String.length (NetNs cfg))%nat;
      cbn [set_Args Args]; unfold append; rewrite ?app_assoc; apply last_last. }
  assert (Hpath : Path (startedCommand cfg makeShowAllRules) = "iptables-save").
  { unfold startedCommand. rewrite Hw.
    destruct (0 <? String.length (NetNs cfg))%nat; reflexivity. }
  split.
  - intros c r Hin.
    destruct (@RunShape_commands cfg _ _ c r (ConfigureFirewall_shape cfg w H) Hin)
      as (c0 & -> & _).
    apply Hlast.
  - destruct (ConfigureFirewall_shape cfg w H) as [e|cleanup pre c post e Hm Hc|cleanup d Hm];
      eexists _, _; (split; [reflexivity|]); split; auto.
Qed.

(** ** The order of the processes *)

(** X9.  Whatever the boundary does, the processes [ConfigureFirewall]
    starts are an initial part of its plan (dump, cleanup, installation,
    dump), each in the form [executeCommand] gives it: nothing outside the
    plan is started, nothing is started twice or out of turn, and a
    failure only cuts the plan short. *)
Theorem started_processes_follow_the_plan (cfg : FirewallConfiguration) (w : World) :
  exists rest,
    map (startedCommand cfg) (plan cfg)
    = map fst (dispatched (ConfigureFirewall cfg w)) ++ rest.
Proof.
  destruct (SimulateOnly cfg) eqn:H.
  { rewrite ConfigureFirewall_simulated by assumption. eexists. reflexivity. }
  unfold plan.
  destruct (ConfigureFirewall_shape cfg w H) as [e|cleanup pre c post e Hm Hc|cleanup d Hm];
    unfold Dispatch in *.
  - eexists. cbn [map fst app]. reflexivity.
  - exists (map (startedCommand cfg) (post ++ [makeShowAllRules])).
    rewrite Hc. cbn [map fst succeeded app].
    rewrite !map_app, Hm, map_map. cbn [map fst succeeded].
    rewrite <- !app_assoc. cbn [app]. reflexivity.
  - exists []. cbn [map fst succeeded app].
    rewrite !map_app, Hm, map_map. cbn [map fst succeeded].
    rewrite app_nil_r. reflexivity.
Qed.

(** ** What each transaction depends on *)

(** X10.  The inbound transaction depends on the mode, the three inbound
    fields and nothing else; the outbound transaction on [ProxyUID], the
    ignored outbound ports and [ProxyOutgoingPort]; so the installation
    sequence is the same whether the run is simulated or not, whatever
    the namespace and the wait flag. *)
Theorem transactions_depend_on_their_fields (cfg cfg' : FirewallConfiguration) :
  (Mode cfg = Mode cfg' ->
   PortsToRedirectInbound cfg = PortsToRedirectInbound cfg' ->
   InboundPortsToIgnore cfg = InboundPortsToIgnore cfg' ->
   ProxyInboundPort cfg = ProxyInboundPort cfg' ->
   inboundTransaction cfg = inboundTransaction cfg')
  /\ (ProxyUID cfg = ProxyUID cfg' ->
      OutboundPortsToIgnore cfg = OutboundPortsToIgnore cfg' ->
      ProxyOutgoingPort cfg = ProxyOutgoingPort cfg' ->
      outboundTransaction cfg = outboundTransaction cfg').
Proof.
  split.
  - intros Hm Hp Hi Hport. rewrite !inboundTransaction_eq.
    unfold inboundRedirectRules, inboundRedirectAllRule, inboundRedirectPortRule.
    now rewrite Hm, Hp, Hi, Hport.
  - intros Hu Hp Hport. rewrite !outboundTransaction_eq.
    unfold identityRules, hairpinRule, identityExemptionRule, catchAllRedirectRule.
    now rewrite Hu, Hp, Hport.
Qed.

(** ** The configuration read back from the commands *)

Lemma map_injective (A B : Type) (f : A -> B) (l l' : list A) :
  (forall a b, f a = f b -> a = b) -> map f l = map f l' -> l = l'.
Proof.
  intros Hf. revert l'; induction l as [|a l IH]; intros [|a' l'] E;
    try discriminate; [reflexivity|].
  cbn in E. injection E as Ea El. f_equal; auto.
Qed.

Lemma cons_eq_inv (A : Type) (a b : A) (l l' : list A) :
  a :: l = b :: l' -> a = b /\ l = l'.
Proof. intros E. injection E as Ea El. now split. Qed.

Lemma outboundTransaction_redirects (cfg : FirewallConfiguration) :
  filter isRedirectRule (outboundTransaction cfg) = [catchAllRedirectRule cfg].
Proof.
  rewrite outboundTransaction_eq. cbn [filter].
  replace (isRedirectRule createOutputChain) with false by (read_rule; reflexivity).
  rewrite !filter_app. cbn [filter].
  rewrite (proj1 (identityRules_read cfg)).
  replace (isRedirectRule loopbackExemptionRule) with false by (read_rule; reflexivity).
  replace (isRedirectRule (catchAllRedirectRule cfg)) with true by (read_rule; reflexivity).
  replace (isRedirectRule outputJumpRule) with false by (read_rule; reflexivity).
  rewrite filter_map_drop by (intros a; apply portExemptionRule_read).
  reflexivity.
Qed.

Lemma outboundTransaction_exemptions (cfg : FirewallConfiguration) :
  filter isExemptionRule (outboundTransaction cfg)
  = (if 0 <? ProxyUID cfg then [identityExemptionRule cfg] else []) ++
    loopbackExemptionRule ::
    map (portExemptionRule outputChainName) (OutboundPortsToIgnore cfg).
Proof.
  rewrite outboundTransaction_eq. cbn [filter].
  replace (isExemptionRule createOutputChain) with false by (read_rule; reflexivity).
  rewrite !filter_app. cbn [filter].
  rewrite (proj2 (identityRules_read cfg)).
  replace (isExemptionRule loopbackExemptionRule) with true by (read_rule; reflexivity).
  replace (isExemptionRule (catchAllRedirectRule cfg)) with false by (read_rule; reflexivity).
  replace (isExemptionRule outputJumpRule) with false by (read_rule; reflexivity).
  rewrite filter_map_keep by (intros a; apply portExemptionRule_read).
  now rewrite app_nil_r.
Qed.

Lemma portExemptionRule_injective (chain : string) (p q : Z) :
  chain = outputChainName \/ chain = redirectChainName ->
  portExemptionRule chain p = portExemptionRule chain q -> p = q.
Proof.
  intros [-> | ->] E; apply (f_equal destinationPortOf) in E;
    revert E; read_rule; intros E; injection E as E; now apply Itoa_inj.
Qed.

(** X13.  The commands keep what the configuration said.  Two
    configurations with the same outbound transaction have the same
    ignored outbound ports, the same [ProxyOutgoingPort], agree on whether
    [ProxyUID] is positive, and have the same [ProxyUID] when it is; two
    configurations with the same inbound transaction have the same
    ignored inbound ports, and the same listed ports when both are in
    redirect-listed mode. *)
Theorem transactions_determine_their_fields (cfg cfg' : FirewallConfiguration) :
  (outboundTransaction cfg = outboundTransaction cfg' ->
   OutboundPortsToIgnore cfg = OutboundPortsToIgnore cfg'
   /\ ProxyOutgoingPort cfg = ProxyOutgoingPort cfg'
   /\ (0 <? ProxyUID cfg) = (0 <? ProxyUID cfg')
   /\ (0 < ProxyUID cfg -> ProxyUID cfg = ProxyUID cfg'))
  /\ (inboundTransaction cfg = inboundTransaction cfg' ->
      InboundPortsToIgnore cfg = InboundPortsToIgnore cfg'
      /\ (Mode cfg = RedirectListedMode -> Mode cfg' = RedirectListedMode ->
          PortsToRedirectInbound cfg = PortsToRedirectInbound cfg')).
Proof.
  split.
  - intros E.
    pose proof (f_equal (filter isRedirectRule) E) as Er.
    pose proof (f_equal (filter isExemptionRule) E) as Ee.
    rewrite !outboundTransaction_redirects in Er.
    rewrite !outboundTransaction_exemptions in Ee.
    assert (Hport : ProxyOutgoingPort cfg = ProxyOutgoingPort cfg').
    { apply cons_eq_inv in Er as [Er _]. apply (f_equal toPortOf) in Er.
      revert Er. read_rule. intros Er. injection Er as Er. now apply Itoa_inj. }
    assert (Hmap : forall l l',
               map (portExemptionRule outputChainName) l
               = map (portExemptionRule outputChainName) l' -> l = l').
    { intros l l'. apply map_injective. intros a b.
      apply portExemptionRule_injective. now left. }
    destruct (0 <? ProxyUID cfg) eqn:U, (0 <? ProxyUID cfg') eqn:U'; cbn [app] in Ee.
    + apply cons_eq_inv in Ee as [Eid Ee]. apply cons_eq_inv in Ee as [_ Eports].
      repeat split; auto.
      intros _. apply (f_equal (fun c => optionValue "--uid-owner" (Args c))) in Eid.
      revert Eid. read_rule. intros Eid. injection Eid as Eid. now apply Itoa_inj.
    + exfalso. apply cons_eq_inv in Ee as [Eid _].
      apply (f_equal usesOwnerMatch) in Eid. revert Eid. read_more. discriminate.
    + exfalso. apply cons_eq_inv in Ee as [Eid _].
      apply (f_equal usesOwnerMatch) in Eid. revert Eid. read_more. discriminate.
    + apply cons_eq_inv in Ee as [_ Eports]. repeat split; auto.
      intros Hpos. apply Z.ltb_lt in Hpos. congruence.
  - intros E. split.
    + pose proof (f_equal (filter isExemptionRule) E) as Ee.
      rewrite !inboundTransaction_exemptions in Ee.
      revert Ee. apply map_injective. intros a b.
      apply portExemptionRule_injective. now right.
    + intros Hm Hm'.
      pose proof (f_equal (filter isRedirectRule) E) as Er.
      rewrite !inboundTransaction_redirects in Er.
      assert (R : forall c, Mode c = RedirectListedMode ->
                 inboundRedirectRules c
                 = map (inboundRedirectPortRule c) (PortsToRedirectInbound c)).
      { intros c Hc. unfold inboundRedirectRules. now rewrite Hc. }
      rewrite (R cfg Hm), (R cfg' Hm') in Er.
      apply (f_equal (map destinationPortOf)) in Er.
      rewrite !map_map in Er.
      assert (Hd : forall c l,
                 map (fun x => destinationPortOf (inboundRedirectPortRule c x)) l
                 = map (fun port => Some (Itoa port)) l).
      { intros c l. apply map_ext. intros port. apply inboundRedirectPortRule_read. }
      rewrite !Hd in Er.
      revert Er. apply map_injective. intros a b Eab. injection Eab as Eab.
      now apply Itoa_inj.
Qed.

(** ** Comments read back *)

Fixpoint slashFree (s : string) : bool :=
  match s with
  | EmptyString => true
  | String c s => negb (c =? "/")%char && slashFree s
  end.

(** The part of a string before its first slash, and the part after it. *)
Fixpoint beforeSlash (s : string) : string :=
  match s with
  | EmptyString => EmptyString
  | String c s => if (c =? "/")%char then EmptyString else String c (beforeSlash s)
  end.

Fixpoint afterSlash (s : string) : string :=
  match s with
  | EmptyString => EmptyString
  | String c s => if (c =? "/")%char then s else afterSlash s
  end.

(** The rule of a command: what follows the action in its vector, that
    is the chain, the matches, the target and the comment. *)
Definition ruleSpec (cmd : Cmd) : list string := skipn 4 (Args cmd).

Lemma slashFree_app (a b : string) :
  slashFree (a ++ b)%string = slashFree a && slashFree b.
Proof.
  induction a as [|c a IH]; cbn; [reflexivity|].
  rewrite IH. now rewrite andb_assoc.
Qed.

Lemma string_of_uint_slashFree (d : Decimal.uint) :
  slashFree (NilEmpty.string_of_uint d) = true.
Proof. induction d; cbn; auto. Qed.

Lemma Itoa_slashFree (i : Z) : slashFree (Itoa i) = true.
Proof.
  unfold Itoa, NilZero.string_of_int, NilZero.string_of_uint.
  destruct (Z.to_int i) as [d|d]; destruct d; cbn; auto using string_of_uint_slashFree.
Qed.

Lemma split_at_slash (l t : string) :
  slashFree l = true ->
  beforeSlash (l ++ String "/" t)%string = l
  /\ afterSlash (l ++ String "/" t)%string = t.
Proof.
  induction l as [|c l IH]; cbn; [now split|].
  intros H. apply andb_true_iff in H as [Hc Hl].
  destruct (c =? "/")%char; [discriminate|].
  destruct (IH Hl) as [-> ->]. now split.
Qed.

Lemma composedCommands_label (cfg : FirewallConfiguration) (c : Cmd) :
  In c (composedCommands cfg) ->
  exists label, slashFree label = true /\ commentOf c = Some (formatComment label).
Proof.
  intros H. apply composedCommands_cases in H.
  assert (Hport : forall port, slashFree ("ignore-port-" ++ Itoa port)%string = true).
  { intros port. rewrite slashFree_app, Itoa_slashFree. reflexivity. }
  assert (Hredir : forall port,
             slashFree ("redirect-port-" ++ Itoa port ++ "-to-proxy-port")%string = true).
  { intros port. rewrite !slashFree_app, Itoa_slashFree. reflexivity. }
  repeat (destruct H as [H|H]); try destruct H as (p & H); subst c;
    eexists; (split; [|read_rule; reflexivity]); auto.
Qed.

End Run.

(** * Across runs *)

Lemma append_inv_head (s a b : string) : (s ++ a)%string = (s ++ b)%string -> a = b.
Proof.
  induction s as [|c s IH]; cbn; [trivial|]. intros H. injection H as H. auto.
Qed.

(** C8, as the code has it.  Of the commands [ConfigureFirewall] builds,
    the dump, the chain flushes and the chain deletions carry no comment;
    every other one carries a comment [proxy-init/<label>/<trace id>] with
    the trace identifier of the run, and two runs started in different
    seconds have different trace identifiers, hence different comments
    under the same label. *)
Theorem C8_comments_carry_the_trace_id (now : Z) (cfg : FirewallConfiguration) :
  (forall c,
     In c (makeShowAllRules :: cleanupCommands now ++ composedCommands now cfg) ->
     (commentOf c = None
      /\ (c = makeShowAllRules
          \/ exists chain, c = makeFlushChain chain \/ c = makeDeleteChain chain))
     \/ (exists label,
          commentOf c = Some ("proxy-init/" ++ label ++ "/" ++ ExecutionTraceID now)%string))
  /\ (forall now',
        now <> now' ->
        ExecutionTraceID now <> ExecutionTraceID now'
        /\ forall label, formatComment now label <> formatComment now' label).
Proof.
  split.
  - intros c Hin. apply (@constructed_comment now cfg c Hin).
  - intros now' Hne.
    assert (Hid : ExecutionTraceID now <> ExecutionTraceID now').
    { unfold ExecutionTraceID. intros E. now apply Itoa_inj in E. }
    split; [assumption|].
    intros label E. unfold formatComment in E.
    apply (append_inv_head "proxy-init/") in E.
    apply append_inv_head in E. apply (append_inv_head "/") in E. contradiction.
Qed.

(** X11.  A comment names its run and its label: two comments built
    from labels without a slash are equal only when the labels and the
    trace identifiers are; every label of an installation command is such
    a label, so two installation commands, of any two configurations, that
    carry the same comment were built in runs started in the same
    second. *)
Theorem comment_identifies_label_and_run (now now' : Z) :
  (forall label label',
     slashFree label = true -> slashFree label' = true ->
     formatComment now label = formatComment now' label' ->
     label = label' /\ now = now')
  /\ (forall cfg cfg' c c',
        In c (composedCommands now cfg) -> In c' (composedCommands now' cfg') ->
        commentOf c = commentOf c' -> now = now').
Proof.
  assert (Hinj : forall label label',
             slashFree label = true -> slashFree label' = true ->
             formatComment now label = formatComment now' label' ->
             label = label' /\ now = now').
  { intros label label' Hl Hl' E. unfold formatComment in E.
    apply (append_inv_head "proxy-init/") in E.
    change ("/" ++ ExecutionTraceID now)%string
      with (String "/" (ExecutionTraceID now)) in E.
    change ("/" ++ ExecutionTraceID now')%string
      with (String "/" (ExecutionTraceID now')) in E.
    pose proof (f_equal beforeSlash E) as Eb.
    pose proof (f_equal afterSlash E) as Ea.
    destruct (split_at_slash label (ExecutionTraceID now) Hl) as [B A].
    destruct (split_at_slash label' (ExecutionTraceID now') Hl') as [B' A'].
    rewrite B, B' in Eb. rewrite A, A' in Ea.
    split; [assumption|]. now apply Itoa_inj. }
  split; [exact Hinj|].
  intros cfg cfg' c c' Hc Hc' E.
  apply composedCommands_label in Hc as (label & Hl & Ec).
  apply composedCommands_label in Hc' as (label' & Hl' & Ec').
  rewrite Ec, Ec' in E.
  assert (E' : formatComment now label = formatComment now' label') by congruence.
  now destruct (Hinj label label' Hl Hl' E').
Qed.

(** X12.  The cleanup phase asks to delete, from OUTPUT, a jump whose
    comment has the label of the PREROUTING jump: its rule is never the
    rule the installation appends to OUTPUT, in the same run or between
    two runs.  The rule it asks to delete from PREROUTING is the one the
    installation appends there exactly when the two runs have the same
    trace identifier. *)
Theorem cleanup_jump_deletions_against_installed_jumps (now now' : Z) :
  let deleteFromOutput :=
    makeJumpFromChainToAnotherForAllProtocols now' IptablesOutputChainName
      outputChainName "install-proxy-init-prerouting" true in
  let deleteFromPrerouting :=
    makeJumpFromChainToAnotherForAllProtocols now' IptablesPreroutingChainName
      redirectChainName "install-proxy-init-prerouting" true in
  firstn 2 (cleanupCommands now') = [deleteFromOutput; deleteFromPrerouting]
  /\ ruleSpec deleteFromOutput <> ruleSpec (outputJumpRule now)
  /\ (ruleSpec deleteFromPrerouting = ruleSpec (preroutingJumpRule now) <-> now = now').
Proof.
  cbv zeta. split; [reflexivity|]. split.
  - intros E. injection E as E. discriminate.
  - split.
    + intros E. injection E as E. unfold ExecutionTraceID in E.
      symmetry. now apply Itoa_inj.
    + intros ->. reflexivity.
Qed.

(** * The theorems at the sample configurations *)

(** C1 at [sampleConfiguration], whose [ProxyUID] is 2102. *)
Lemma C1_witness :
  0 < ProxyUID sampleConfiguration
  /\ map Args (outboundTransaction 1600000000 sampleConfiguration)
     = [ ["iptables"; "-t"; "nat"; "-N"; "PROXY_INIT_OUTPUT"; "-m"; "comment";
          "--comment"; "proxy-init/redirect-common-chain/1600000000"];
         ["iptables"; "-t"; "nat"; "-A"; "PROXY_INIT_OUTPUT"; "-m"; "owner";
          "--uid-owner"; "2102"; "-o"; "lo"; "!"; "-d 127.0.0.1/32"; "-j";
          "PROXY_INIT_REDIRECT"; "-m"; "comment"; "--comment";
          "proxy-init/redirect-non-loopback-local-traffic/1600000000"];
         ["iptables"; "-t"; "nat"; "-A"; "PROXY_INIT_OUTPUT"; "-m"; "owner";
          "--uid-owner"; "2102"; "-j"; "RETURN"; "-m"; "comment"; "--comment";
          "proxy-init/ignore-proxy-user-id/1600000000"];
         ["iptables"; "-t"; "nat"; "-A"; "PROXY_INIT_OUTPUT"; "-o"; "lo";
          "-j"; "RETURN"; "-m"; "comment"; "--comment";
          "proxy-init/ignore-loopback/1600000000"];
         ["iptables"; "-t"; "nat"; "-A"; "PROXY_INIT_OUTPUT"; "-p"; "tcp";
          "--destination-port"; "443"; "-j"; "RETURN"; "-m"; "comment";
          "--comment"; "proxy-init/ignore-port-443/1600000000"];
         ["iptables"; "-t"; "nat"; "-A"; "PROXY_INIT_OUTPUT"; "-p"; "tcp";
          "-j"; "REDIRECT"; "--to-port"; "4140"; "-m"; "comment"; "--comment";
          "proxy-init/redirect-all-outgoing-to-proxy-port/1600000000"];
         ["iptables"; "-t"; "nat"; "-A"; "OUTPUT"; "-j"; "PROXY_INIT_OUTPUT";
          "-m"; "comment"; "--comment";
          "proxy-init/install-proxy-init-output/1600000000"] ].
Proof.
  split; [reflexivity|].
  destruct (C1_outbound_exemptions_before_catch_all 1600000000 sampleConfiguration)
    as (_ & _ & _ & _ & _ & H).
  rewrite H by reflexivity. reflexivity.
Defined.

(** C2: at [sampleConfiguration] the chain creation of the outbound
    transaction is the sixth command of the sequence and that of the
    inbound transaction the first, so the outbound transaction does not
    precede the inbound one. *)
Lemma C2_counterexample :
  ~ Precedes (outboundTransaction 1600000000 sampleConfiguration)
      (inboundTransaction 1600000000 sampleConfiguration)
      (composedCommands 1600000000 sampleConfiguration).
Proof.
  intros H.
  specialize (H 5%nat 0%nat (createOutputChain 1600000000) (createRedirectChain 1600000000)).
  assert (5 < 0)%nat; [|lia].
  apply H.
  - reflexivity.
  - apply (nth_error_In _ 0). reflexivity.
  - reflexivity.
  - apply (nth_error_In _ 0). reflexivity.
Qed.

(** C3 at [listedConfiguration], whose list is 8080, 9090. *)
Lemma C3_witness :
  Mode listedConfiguration = RedirectListedMode
  /\ map Args (filter isRedirectRule (inboundTransaction 1600000000 listedConfiguration))
     = [ ["iptables"; "-t"; "nat"; "-A"; "PROXY_INIT_REDIRECT"; "-p"; "tcp";
          "--destination-port"; "8080"; "-j"; "REDIRECT"; "--to-port"; "4143";
          "-m"; "comment"; "--comment";
          "proxy-init/redirect-port-8080-to-proxy-port/1600000000"];
         ["iptables"; "-t"; "nat"; "-A"; "PROXY_INIT_REDIRECT"; "-p"; "tcp";
          "--destination-port"; "9090"; "-j"; "REDIRECT"; "--to-port"; "4143";
          "-m"; "comment"; "--comment";
          "proxy-init/redirect-port-9090-to-proxy-port/1600000000"] ].
Proof.
  split; [reflexivity|].
  destruct (C3_redirect_listed_one_rule_per_port 1600000000 listedConfiguration eq_refl)
    as (H & _).
  rewrite H. reflexivity.
Defined.

(** C4 at [sampleConfiguration], and with a list put in place of its
    empty one. *)
Lemma C4_witness :
  Mode sampleConfiguration = RedirectAllMode
  /\ map Args (filter isRedirectRule (inboundTransaction 1600000000 sampleConfiguration))
     = [ ["iptables"; "-t"; "nat"; "-A"; "PROXY_INIT_REDIRECT"; "-p"; "tcp";
          "-j"; "REDIRECT"; "--to-port"; "4143"; "-m"; "comment"; "--comment";
          "proxy-init/redirect-all-incoming-to-proxy-port/1600000000"] ]
  /\ inboundTransaction 1600000000 (withPortsToRedirectInbound sampleConfiguration [8080; 9090])
     = inboundTransaction 1600000000 sampleConfiguration.
Proof.
  split; [reflexivity|].
  destruct (C4_redirect_all_one_unconditional_rule 1600000000 sampleConfiguration eq_refl)
    as (H & _ & _ & Hports).
  split; [rewrite H; reflexivity | apply Hports].
Defined.

(** C5 on a machine where every cleanup command fails and the owner
    match is missing: the six cleanup failures are passed over, the
    seventh installation command fails, and that is the end. *)
Lemma C5_witness :
  let o := ConfigureFirewall 1600000000 noOwnerMatchBoundary sampleConfiguration tt in
  map snd (firstn 7 (dispatched o))
  = [None; Some "exit status 1"; Some "exit status 1"; Some "exit status 1";
     Some "exit status 1"; Some "exit status 1"; Some "exit status 1"]
  /\ List.length (dispatched o) = 14%nat
  /\ value o = Some "exit status 2"
  /\ exists cleanup installation,
       tl (dispatched o) = cleanup ++ installation
       /\ map fst cleanup
          = map (startedCommand sampleConfiguration) (cleanupCommands 1600000000)
       /\ ((exists pre c post e,
              composedCommands 1600000000 sampleConfiguration = pre ++ c :: post
              /\ installation
                 = map (succeeded string sampleConfiguration) pre ++
                   [(startedCommand sampleConfiguration c, Some e)]
              /\ value o = Some e)
           \/ (exists d,
                installation
                = map (succeeded string sampleConfiguration)
                    (composedCommands 1600000000 sampleConfiguration) ++
                  [(startedCommand sampleConfiguration makeShowAllRules, d)]
                /\ value o = None)).
Proof.
  cbv zeta. split; [reflexivity|]. split; [reflexivity|]. split; [reflexivity|].
  apply (@C5_cleanup_best_effort_installation_fail_fast 1600000000 unit string
           noOwnerMatchBoundary sampleConfiguration tt).
  reflexivity.
Defined.

(** C6: a simulated run starts no process, so no dump either; and a run
    whose installation fails ends there, with the one dump it started
    at the beginning. *)
Lemma C6_counterexample :
  (SimulateOnly simulatedConfiguration = true
   /\ dispatched (ConfigureFirewall 1600000000 workingBoundary simulatedConfiguration tt) = []
   /\ ~ In makeShowAllRules
          (map fst
             (dispatched
                (ConfigureFirewall 1600000000 workingBoundary simulatedConfiguration tt))))
  /\ (SimulateOnly sampleConfiguration = false
      /\ value (ConfigureFirewall 1600000000 noOwnerMatchBoundary sampleConfiguration tt)
         = Some "exit status 2"
      /\ map (fun d => Path (fst d))
           (dispatched
              (ConfigureFirewall 1600000000 noOwnerMatchBoundary sampleConfiguration tt))
         = "iptables-save" :: repeat "iptables" 13).
Proof.
  split.
  - split; [reflexivity|]. split; [reflexivity|]. intros [].
  - split; [reflexivity|]. split; reflexivity.
Qed.

(** C6 on a machine where the dump works the first time only: the run
    ends with the failing dump and returns no error. *)
Lemma C6_witness :
  let o := ConfigureFirewall 1600000000 lateDumpFailureBoundary sampleConfiguration 0%nat in
  SimulateOnly sampleConfiguration = false
  /\ last (dispatched o) (makeShowAllRules, None) = (makeShowAllRules, Some "exit status 1")
  /\ value o = None
  /\ exists d rest,
       dispatched o = (startedCommand sampleConfiguration makeShowAllRules, d) :: rest
       /\ (forall e, d = Some e -> value o = Some e /\ rest = []).
Proof.
  cbv zeta. split; [reflexivity|]. split; [reflexivity|]. split; [reflexivity|].
  apply (C6_dump_before_and_after 1600000000 lateDumpFailureBoundary sampleConfiguration 0%nat).
  reflexivity.
Defined.

(** C7 at [simulatedConfiguration], on a machine where nothing could be
    started. *)
Lemma C7_witness :
  SimulateOnly simulatedConfiguration = true
  /\ List.length (composedCommands 1600000000 simulatedConfiguration) = 12%nat
  /\ ConfigureFirewall 1600000000 noToolBoundary simulatedConfiguration tt
     = {| value := None; dispatched := []; world := tt |}.
Proof.
  split; [reflexivity|]. split; [reflexivity|].
  apply (C7_simulate_only_dispatches_nothing 1600000000 noToolBoundary
           simulatedConfiguration eq_refl).
Defined.

(** C8: the flush of the output chain is built by the cleanup phase and
    carries no comment. *)
Lemma C8_counterexample :
  In (makeFlushChain outputChainName) (cleanupCommands 1600000000)
  /\ Args (makeFlushChain outputChainName) = ["iptables"; "-t"; "nat"; "-F"; "PROXY_INIT_OUTPUT"]
  /\ commentOf (makeFlushChain outputChainName) = None
  /\ ~ (exists label,
          commentOf (makeFlushChain outputChainName)
          = Some (formatComment 1600000000 label)).
Proof.
  split; [cbn; tauto|]. split; [reflexivity|]. split; [reflexivity|].
  intros (label & H). discriminate.
Qed.

(** C8 for two runs one second apart. *)
Lemma C8_witness :
  1600000000 <> 1600000001
  /\ ExecutionTraceID 1600000000 <> ExecutionTraceID 1600000001
  /\ commentOf (createOutputChain 1600000000)
     = Some "proxy-init/redirect-common-chain/1600000000"
  /\ commentOf (createOutputChain 1600000001)
     = Some "proxy-init/redirect-common-chain/1600000001".
Proof.
  split; [discriminate|]. split; [|split; reflexivity].
  apply (C8_comments_carry_the_trace_id 1600000000 sampleConfiguration). discriminate.
Defined.

(** C9 at [namespacedConfiguration]: the first process started is
    [iptables-save], with [nsenter] as its argument zero. *)
Lemma C9_witness :
  let o := ConfigureFirewall 1600000000 firstRunBoundary namespacedConfiguration tt in
  (SimulateOnly namespacedConfiguration = false /\ NetNs namespacedConfiguration <> "")
  /\ hd_error (map fst (dispatched o))
     = Some {| Path := "iptables-save";
               Args := ["nsenter"; "--net"; "/proc/4242/ns/net"; "iptables-save"; "-w"] |}
  /\ map (fun d => Path (fst d)) (dispatched o)
     = "iptables-save" :: repeat "iptables" 18 ++ ["iptables-save"]
  /\ forall c r,
       In (c, r) (dispatched o) ->
       (Path c = "iptables" \/ Path c = "iptables-save")
       /\ Path c <> "nsenter"
       /\ exists tail, Args c = "nsenter" :: "--net" :: NetNs namespacedConfiguration :: tail.
Proof.
  cbv zeta. split; [split; [reflexivity|discriminate]|].
  split; [reflexivity|]. split; [reflexivity|].
  apply (C9_namespace_arguments_without_path 1600000000 firstRunBoundary
           namespacedConfiguration eq_refl).
  discriminate.
Defined.

(** C10 at [unknownModeConfiguration], on a machine where everything
    works. *)
Lemma C10_witness :
  (Mode unknownModeConfiguration <> RedirectAllMode
   /\ Mode unknownModeConfiguration <> RedirectListedMode)
  /\ filter isRedirectRule (inboundTransaction 1600000000 unknownModeConfiguration) = []
  /\ List.length (inboundTransaction 1600000000 unknownModeConfiguration) = 4%nat
  /\ value (ConfigureFirewall 1600000000 workingBoundary unknownModeConfiguration tt) = None.
Proof.
  assert (H1 : Mode unknownModeConfiguration <> RedirectAllMode) by discriminate.
  assert (H2 : Mode unknownModeConfiguration <> RedirectListedMode) by discriminate.
  split; [now split|].
  destruct (C10_unknown_mode_is_silent 1600000000 workingBoundary
              unknownModeConfiguration H1 H2)
    as (_ & Hfilter & _ & _ & Hok).
  split; [exact Hfilter|]. split; [reflexivity|].
  apply Hok. reflexivity.
Defined.

(** * More at the sample configurations *)

(** X3 at [sampleConfiguration]: the hairpin jump, seventh of the
    sequence, works on [PROXY_INIT_OUTPUT], created by the sixth
    command. *)
Lemma chain_created_before_it_is_used_witness :
  nth_error (composedCommands 1600000000 sampleConfiguration) 6
  = Some (hairpinRule 1600000000 sampleConfiguration)
  /\ nth_error (composedCommands 1600000000 sampleConfiguration) 5
     = Some (makeCreateNewChain 1600000000 outputChainName "redirect-common-chain")
  /\ exists k,
       (k <= 6)%nat
       /\ nth_error (composedCommands 1600000000 sampleConfiguration) k
          = Some (makeCreateNewChain 1600000000 outputChainName "redirect-common-chain").
Proof.
  split; [reflexivity|]. split; [reflexivity|].
  apply (@chain_created_before_it_is_used 1600000000 sampleConfiguration outputChainName
           6 (hairpinRule 1600000000 sampleConfiguration)).
  - now left.
  - reflexivity.
  - reflexivity.
Defined.

(** X8 at [namespacedConfiguration], which sets the wait flag: the dump
    is started as [iptables-save] with the arguments
    [nsenter --net /proc/4242/ns/net iptables-save -w]. *)
Lemma wait_flag_on_every_started_process_witness :
  let o := ConfigureFirewall 1600000000 firstRunBoundary namespacedConfiguration tt in
  (SimulateOnly namespacedConfiguration = false /\ UseWaitFlag namespacedConfiguration = true)
  /\ map (fun d => last (Args (fst d)) "") (dispatched o) = repeat "-w" 20
  /\ (forall c r, In (c, r) (dispatched o) -> last (Args c) "" = "-w").
Proof.
  cbv zeta. split; [split; reflexivity|]. split; [reflexivity|].
  apply (@wait_flag_on_every_started_process 1600000000 unit string firstRunBoundary
           namespacedConfiguration tt eq_refl eq_refl).
Defined.
